(** * iping.online: the client wrappers, the auth provider and the
      new-user trigger, embedded and checked against the specification.

    The repository is a thin client over a Backend-as-a-Service SDK.  The
    file first embeds the code, then states and proves the properties.

    The embedding:
    - [Js], [Sdk]: JavaScript values and the SDK surface the wrappers use;
      a wrapper is a finite tree of SDK requests ([Prog]), run against an
      arbitrary backend ([run]), which yields the outcome and the trace of
      requests with their answers;
    - [ApiService], [Follows], [Wrappers]: the ten CRUD wrappers, those of
      the class [ApiService] (fetchOwnProfile .. getPosts) and the follow
      helpers (followUser .. getUserCount);
    - [AuthProvider]: the effect of [AuthProvider] in
      [SupabaseAuthContext.tsx] as an event system with a clock;
    - [Migration]: the trigger function [handle_new_user] of the migration
      [20251128080000_fix_rls_and_triggers.sql], and the request [signUp]
      sends.

    The properties follow, one section per claim, C1 to C10. *)

From Stdlib Require Import List String Ascii Bool Arith ZArith NArith Lia.
From Stdlib Require Import DecimalString.
From Stdlib Require DecimalN DecimalPos.
Import ListNotations.
Set Warnings "-register-all".
Local Open Scope string_scope.
Local Open Scope list_scope.

(* ===================================================================== *)
(** ** JavaScript values *)
(* ===================================================================== *)

Module Js.

(** A JavaScript value as the wrappers see it.  An object is the list of its
    own enumerable properties in insertion order, which is the order
    [Object.entries] reports. *)
Inductive JsVal : Type :=
| JUndefined
| JNull
| JBool (b : bool)
| JNum (n : Z)
| JStr (s : string)
| JObj (fields : list (string * JsVal))
| JArr (items : list JsVal).

(** [v !== undefined && v !== null] *)
Definition not_nullish (v : JsVal) : bool :=
  match v with
  | JUndefined | JNull => false
  | _ => true
  end.

(** [!!v] *)
Definition truthy (v : JsVal) : bool :=
  match v with
  | JUndefined | JNull => false
  | JBool b => b
  | JNum n => negb (Z.eqb n 0)
  | JStr s => negb (String.eqb s EmptyString)
  | JObj _ | JArr _ => true
  end.

Fixpoint assoc (k : string) (fs : list (string * JsVal)) : option JsVal :=
  match fs with
  | [] => None
  | (k', v) :: rest => if String.eqb k k' then Some v else assoc k rest
  end.

(** [o.k]: the property, or [undefined] when [o] has none of that name.
    Reading a property of a string, number or boolean gives [undefined];
    the wrappers never read a property of [null] or [undefined] without
    [?.], so those give [undefined] here as well. *)
Definition get (o : JsVal) (k : string) : JsVal :=
  match o with
  | JObj fs => match assoc k fs with Some v => v | None => JUndefined end
  | _ => JUndefined
  end.

(** [Object.entries(o)] *)
Definition entries (o : JsVal) : list (string * JsVal) :=
  match o with
  | JObj fs => fs
  | _ => []
  end.

(** [Object.keys(o)] *)
Definition keys (o : JsVal) : list string := map fst (entries o).

(** [Object.fromEntries(es)], for entries with pairwise distinct keys. *)
Definition fromEntries (es : list (string * JsVal)) : JsVal := JObj es.

(** [a ?? b] *)
Definition nullish_or (a b : JsVal) : JsVal :=
  if not_nullish a then a else b.

(** JavaScript numbers are IEEE 754 doubles.  An integer is such a number
    when 53 bits hold its significant digits, so every integer up to 2^53
    in magnitude is one.  [double z] is the double nearest to the integer
    [z], a tie going to the even significand: the result of an operation
    whose exact value is [z], for [z] below 2^1024 in magnitude (beyond
    that the result is Infinity). *)
Definition double (z : Z) : Z :=
  let a := Z.abs z in
  let e := (Z.log2 a - 52)%Z in
  if (e <=? 0)%Z then z
  else
    let q := Z.shiftr a e in
    let r := (a - Z.shiftl q e)%Z in
    let half := Z.shiftl 1 (e - 1) in
    let q' := if (r <? half)%Z then q
              else if (half <? r)%Z then (q + 1)%Z
              else if Z.even q then q else (q + 1)%Z in
    (Z.sgn z * Z.shiftl q' e)%Z.

(** [x + y] and [x - y] on numbers that are integers. *)
Definition number_add (x y : Z) : Z := double (x + y).
Definition number_sub (x y : Z) : Z := double (x - y).

(** [`${n}`] for a non-negative integer. *)
Definition of_N (n : N) : string := NilZero.string_of_uint (N.to_uint n).

(** [s.split(c)] for a one-character separator: the pieces between the
    occurrences of [c], at least one piece. *)
Fixpoint split (c : ascii) (s : string) : list string :=
  match s with
  | EmptyString => [EmptyString]
  | String a rest =>
      if Ascii.eqb a c then EmptyString :: split c rest
      else match split c rest with
           | [] => [String a EmptyString]
           | piece :: pieces => String a piece :: pieces
           end
  end.

End Js.
Import Js.

(* ===================================================================== *)
(** ** The SDK surface and programs over it *)
(* ===================================================================== *)

Module Sdk.

Record User := { user_id : string }.

(** [session?.user] may be missing as far as the code is concerned. *)
Record Session := { session_user : option User }.

Record AuthError := { auth_message : string }.
Record PgError := { pg_message : string; pg_code : string }.
Record StorageError := { storage_message : string }.
Record File := { file_name : string }.

(** An awaited promise either fulfils with a value or rejects. *)
Inductive Settled (X : Type) : Type :=
| Fulfilled (x : X)
| Rejected (reason : JsVal).
Arguments Fulfilled {X} x.
Arguments Rejected {X} reason.

(** The SDK declares its results as discriminated unions: an error comes
    with null data.  [getSession]: [{data: {session}, error}]. *)
Inductive SessionResult :=
| SessionData (s : option Session)
| SessionError (e : AuthError).

Definition data_session (r : SessionResult) : option Session :=
  match r with SessionData s => s | SessionError _ => None end.

(** [getUser]: [{data: {user}, error}]. *)
Inductive UserResult :=
| UserData (u : User)
| UserError (e : AuthError).

Definition data_user (r : UserResult) : option User :=
  match r with UserData u => Some u | UserError _ => None end.

(** A database response [{data, error, count}]. *)
Inductive PgResponse :=
| PgOk (data : JsVal) (count : option N)
| PgErr (e : PgError).

Inductive UploadResult :=
| UploadOk
| UploadErr (e : StorageError).

(** The argument of [.select(...)]: [*], a column, or an embedded table
    with its projection, [profiles(id, username)]. *)
Inductive Column :=
| Star
| Col (name : string)
| Embed (table : string) (cols : list string).

Inductive Verb :=
| Select (cols : list Column) (count_exact head : bool)
| Insert (row : JsVal)
| Update (row : JsVal)
| Delete.

(** One chain of the query builder, [from(t).verb(..).eq(..)...]. *)
Record Query := {
  q_table : string;
  q_verb : Verb;
  q_eq : list (string * JsVal);              (* .eq(column, value) *)
  q_returning : bool;                        (* .select() after a write *)
  q_order : option (string * bool);          (* .order(column, {ascending}) *)
  q_range : option (Z * Z);                  (* .range(from, to) *)
  q_single : bool                            (* .single() *)
}.

Inductive LogLevel := Info | Warn | Error | Debug.

(** What a wrapper asks of its environment, indexed by the answer's type. *)
Inductive Request : Type -> Type :=
| AuthGetSession : Request (Settled SessionResult)
| AuthGetUser : Request (Settled UserResult)
| DbQuery (q : Query) : Request (Settled PgResponse)
| StorageUpload (bucket path : string) (file : File)
                (cacheControl : string) (upsert : bool)
    : Request (Settled UploadResult)
| StorageGetPublicUrl (bucket path : string) : Request string
| DateNow : Request N
| Log (level : LogLevel) (message : string) : Request unit.

(** A request with the answer it got. *)
Inductive Event :=
| EvGetSession (r : Settled SessionResult)
| EvGetUser (r : Settled UserResult)
| EvQuery (q : Query) (r : Settled PgResponse)
| EvUpload (bucket path : string) (file : File)
           (cacheControl : string) (upsert : bool) (r : Settled UploadResult)
| EvPublicUrl (bucket path url : string)
| EvNow (n : N)
| EvLog (level : LogLevel) (message : string).

Definition event_of {X} (e : Request X) : X -> Event :=
  match e in Request X return X -> Event with
  | AuthGetSession => EvGetSession
  | AuthGetUser => EvGetUser
  | DbQuery q => EvQuery q
  | StorageUpload b p f c u => EvUpload b p f c u
  | StorageGetPublicUrl b p => EvPublicUrl b p
  | DateNow => EvNow
  | Log l m => fun _ => EvLog l m
  end.

(** A program: finitely many requests, then a result. *)
Inductive Prog (A : Type) : Type :=
| Ret (a : A)
| Vis {X : Type} (e : Request X) (k : X -> Prog A).
Arguments Ret {A} a.
Arguments Vis {A X} e k.

(** What is thrown: [new Error(message)], or the reason of a rejection. *)
Inductive Thrown :=
| ErrorObject (message : string)
| Reason (v : JsVal).

(** An async function returns or throws. *)
Inductive Outcome (A : Type) : Type :=
| Returned (a : A)
| Threw (t : Thrown).
Arguments Returned {A} a.
Arguments Threw {A} t.

Definition Async (A : Type) : Type := Prog (Outcome A).

Definition ret {A} (a : A) : Async A := Ret (Returned a).
Definition throw {A} (t : Thrown) : Async A := Ret (Threw t).

Fixpoint bind {A B} (m : Async A) (f : A -> Async B) : Async B :=
  match m with
  | Ret (Returned a) => f a
  | Ret (Threw t) => Ret (Threw t)
  | Vis e k => Vis e (fun x => bind (k x) f)
  end.

(** [try { m } catch (t) { h t }] *)
Fixpoint try_catch {A} (m : Async A) (h : Thrown -> Async A) : Async A :=
  match m with
  | Ret (Returned a) => Ret (Returned a)
  | Ret (Threw t) => h t
  | Vis e k => Vis e (fun x => try_catch (k x) h)
  end.

(** [await e]: a rejection is thrown at the await. *)
Definition await {X} (e : Request (Settled X)) : Async X :=
  Vis e (fun r => match r with
                  | Fulfilled x => ret x
                  | Rejected v => throw (Reason v)
                  end).

(** A synchronous call. *)
Definition call {X} (e : Request X) : Async X := Vis e ret.

Declare Scope async_scope.
Delimit Scope async_scope with async.
Notation "x <- m ;; k" := (bind m (fun x => k))
  (at level 61, m at next level, right associativity) : async_scope.
Notation "m ;;; k" := (bind m (fun _ => k))
  (at level 61, right associativity) : async_scope.

(** A backend answers every request from its state. *)
Record Backend (S : Type) := {
  respond : forall X, Request X -> S -> X * S
}.
Arguments respond {S} b {X} e s.

(** Running a program: its result, the events in order, the final state. *)
Fixpoint run {S A} (b : Backend S) (p : Prog A) (s : S)
  : A * list Event * S :=
  match p with
  | Ret a => (a, [], s)
  | Vis e k =>
      let (x, s1) := respond b e s in
      let '(a, tr, s2) := run b (k x) s1 in
      (a, event_of e x :: tr, s2)
  end.

Definition outcome {S A} (b : Backend S) (p : Prog A) (s : S) : A :=
  fst (fst (run b p s)).
Definition trace {S A} (b : Backend S) (p : Prog A) (s : S) : list Event :=
  snd (fst (run b p s)).

(** A backend that answers by a fixed table, whatever came before. *)
Record Script := {
  on_getSession : Settled SessionResult;
  on_getUser : Settled UserResult;
  on_query : Query -> Settled PgResponse;
  on_upload : Settled UploadResult;
  on_publicUrl : string -> string -> string;
  on_now : N
}.

Definition scripted (sc : Script) : Backend unit :=
  {| respond := fun X (e : Request X) (s : unit) =>
       match e in Request X return X * unit with
       | AuthGetSession => (on_getSession sc, s)
       | AuthGetUser => (on_getUser sc, s)
       | DbQuery q => (on_query sc q, s)
       | StorageUpload _ _ _ _ _ => (on_upload sc, s)
       | StorageGetPublicUrl b p => (on_publicUrl sc b p, s)
       | DateNow => (on_now sc, s)
       | Log _ _ => (tt, s)
       end |}.

End Sdk.
Import Sdk.
Local Open Scope async_scope.

(* ===================================================================== *)
(** ** [ApiService]: profile and post wrappers *)
(* ===================================================================== *)

Module ApiService.

(** [session?.user?.id ?? null] *)
Definition user_id_of (s : option Session) : option string :=
  match s with
  | Some {| session_user := Some u |} => Some (user_id u)
  | _ => None
  end.

Definition getUserId : Async (option string) :=
  r <- await AuthGetSession ;;
  ret (user_id_of (data_session r)).

(** [if (!userId)]: null and the empty string are both falsy. *)
Definition authenticated (userId : option string) : option string :=
  match userId with
  | Some uid => if String.eqb uid EmptyString then None else Some uid
  | None => None
  end.

Definition log (l : LogLevel) (m : string) : Async unit := call (Log l m).

Definition from (table : string) (v : Verb) : Query :=
  {| q_table := table; q_verb := v; q_eq := []; q_returning := false;
     q_order := None; q_range := None; q_single := false |}.

Definition eq (column : string) (value : JsVal) (q : Query) : Query :=
  {| q_table := q_table q; q_verb := q_verb q;
     q_eq := q_eq q ++ [(column, value)]; q_returning := q_returning q;
     q_order := q_order q; q_range := q_range q; q_single := q_single q |}.

Definition returning (q : Query) : Query :=
  {| q_table := q_table q; q_verb := q_verb q; q_eq := q_eq q;
     q_returning := true;
     q_order := q_order q; q_range := q_range q; q_single := q_single q |}.

Definition order (column : string) (ascending : bool) (q : Query) : Query :=
  {| q_table := q_table q; q_verb := q_verb q; q_eq := q_eq q;
     q_returning := q_returning q;
     q_order := Some (column, ascending);
     q_range := q_range q; q_single := q_single q |}.

Definition range (lo hi : Z) (q : Query) : Query :=
  {| q_table := q_table q; q_verb := q_verb q; q_eq := q_eq q;
     q_returning := q_returning q; q_order := q_order q;
     q_range := Some (lo, hi); q_single := q_single q |}.

Definition single (q : Query) : Query :=
  {| q_table := q_table q; q_verb := q_verb q; q_eq := q_eq q;
     q_returning := q_returning q; q_order := q_order q;
     q_range := q_range q; q_single := true |}.

Definition select (cols : list Column) : Verb := Select cols false false.

Definition fetchOwnProfile_query (userId : string) : Query :=
  single (eq "id" (JStr userId) (from "profiles" (select [Star]))).

Definition fetchOwnProfile : Async JsVal :=
  userId <- getUserId ;;
  match authenticated userId with
  | None =>
      log Error "User not authenticated to fetch profile." ;;;
      ret JNull
  | Some userId =>
      r <- await (DbQuery (fetchOwnProfile_query userId)) ;;
      match r with
      | PgErr _ => log Error "Error fetching profile:" ;;; ret JNull
      | PgOk data _ => ret data
      end
  end.

(** The object literal [allowedUpdates]. *)
Definition allowedUpdates (updates : JsVal) : JsVal :=
  JObj [ ("username", get updates "username");
         ("display_name", get updates "display_name");
         ("bio", get updates "bio");
         ("location", get updates "location");
         ("avatar_url", get updates "avatar_url") ].

Definition finalUpdates (updates : JsVal) : JsVal :=
  fromEntries
    (filter (fun kv => not_nullish (snd kv)) (entries (allowedUpdates updates))).

Definition updateProfile_query (userId : string) (payload : JsVal) : Query :=
  single (returning (eq "id" (JStr userId) (from "profiles" (Update payload)))).

Definition updateProfile (updates : JsVal) : Async JsVal :=
  userId <- getUserId ;;
  match authenticated userId with
  | None =>
      log Error "User not authenticated to update profile." ;;;
      ret JNull
  | Some userId =>
      if Nat.eqb (List.length (keys (finalUpdates updates))) 0 then
        log Warn "No valid updates provided for profile." ;;;
        fetchOwnProfile
      else
        r <- await (DbQuery (updateProfile_query userId (finalUpdates updates))) ;;
        match r with
        | PgErr _ => log Error "Error updating profile:" ;;; ret JNull
        | PgOk data _ => ret data
        end
  end.

(** [file.name.split('.').pop() || 'png'] (computed by [uploadAvatar] and
    [createPost], and not used by either) *)
Definition fileExtension (f : File) : string :=
  let ext := last (split "."%char (file_name f)) EmptyString in
  if String.eqb ext EmptyString then "png" else ext.

(** [`${bucket}/${userId}/${Date.now()}_${file.name}`] *)
Definition filePath (bucket userId : string) (now : N) (f : File) : string :=
  (bucket ++ "/" ++ userId ++ "/" ++ of_N now ++ "_" ++ file_name f)%string.

Definition uploadAvatar (file : File) : Async JsVal :=
  userId <- getUserId ;;
  match authenticated userId with
  | None =>
      log Error "User not authenticated to upload avatar." ;;;
      ret JNull
  | Some userId =>
      now <- call DateNow ;;
      let path := filePath "avatars" userId now file in
      r <- await (StorageUpload "avatars" path file "3600" true) ;;
      match r with
      | UploadErr _ => log Error "Error uploading avatar:" ;;; ret JNull
      | UploadOk =>
          publicUrl <- call (StorageGetPublicUrl "avatars" path) ;;
          updateProfile (JObj [("avatar_url", JStr publicUrl)])
      end
  end.

Definition createPost_query (userId content : string) (imageUrl : JsVal)
  : Query :=
  single (returning
    (from "pings" (Insert (JObj [ ("user_id", JStr userId);
                                  ("content", JStr content);
                                  ("image_url", imageUrl) ])))).

(** The insert and what follows it. *)
Definition insertPing (userId content : string) (imageUrl : JsVal)
  : Async JsVal :=
  r <- await (DbQuery (createPost_query userId content imageUrl)) ;;
  match r with
  | PgErr _ => log Error "Error inserting post:" ;;; ret JNull
  | PgOk data _ => ret data
  end.

Definition createPost (content : string) (imageFile : option File)
  : Async JsVal :=
  userId <- getUserId ;;
  match authenticated userId with
  | None =>
      log Error "User not authenticated to create post." ;;;
      ret JNull
  | Some userId =>
      match imageFile with
      | Some file =>
          now <- call DateNow ;;
          let path := filePath "posts" userId now file in
          r <- await (StorageUpload "posts" path file "3600" true) ;;
          match r with
          | UploadErr _ =>
              log Error "Error uploading post image:" ;;; ret JNull
          | UploadOk =>
              imageUrl <- call (StorageGetPublicUrl "posts" path) ;;
              insertPing userId content (JStr imageUrl)
          end
      | None => insertPing userId content JUndefined
      end
  end.

(** The select list of [getPosts]. *)
Definition getPosts_columns : list Column :=
  [ Star;
    Embed "profiles" ["id"; "username"; "display_name"; "verified"; "avatar_url"];
    Embed "likes" ["id"; "user_id"];
    Embed "comments" ["id"] ].

(** The query of [getPosts]: [.range(offset, offset + limit - 1)], with
    the arithmetic of numbers. *)
Definition getPosts_query (limit offset : Z) : Query :=
  range offset (number_sub (number_add offset limit) 1)
    (order "created_at" false (from "pings" (select getPosts_columns))).

(** [getPosts(limit = 20, offset = 0)] *)
Definition getPosts (limit offset : Z) : Async JsVal :=
  try_catch
    (r <- await (DbQuery (getPosts_query limit offset)) ;;
     match r with
     | PgErr _ => log Error "Error fetching posts:" ;;; ret JNull
     | PgOk data _ => ret data
     end)
    (fun _ => log Error "Exception fetching posts:" ;;; ret JNull).

End ApiService.

(* ===================================================================== *)
(** ** The follow helpers and [updateUserProfile], [getUserCount] *)
(* ===================================================================== *)

Module Follows.
Import ApiService.

Definition followUser_query (user_to_follow_id : string) : Query :=
  from "follows" (Insert (JObj [("followed_id", JStr user_to_follow_id)])).

Definition followUser (user_to_follow_id : string) : Async JsVal :=
  r <- await (DbQuery (followUser_query user_to_follow_id)) ;;
  match r with
  | PgErr e =>
      log Error "Failed to follow user:" ;;;
      throw (ErrorObject (pg_message e))
  | PgOk _ _ => ret JUndefined
  end.

Definition unfollowUser_query (user_to_unfollow_id : string) : Query :=
  eq "followed_id" (JStr user_to_unfollow_id) (from "follows" Delete).

Definition unfollowUser (user_to_unfollow_id : string) : Async JsVal :=
  r <- await (DbQuery (unfollowUser_query user_to_unfollow_id)) ;;
  match r with
  | PgErr e =>
      log Error "Failed to unfollow user:" ;;;
      throw (ErrorObject (pg_message e))
  | PgOk _ _ => ret JUndefined
  end.

Definition isFollowing_query (target_user_id : string) : Query :=
  single (eq "followed_id" (JStr target_user_id)
            (from "follows" (select [Col "id"]))).

Definition isFollowing (target_user_id : string) : Async JsVal :=
  r <- await (DbQuery (isFollowing_query target_user_id)) ;;
  match r with
  | PgErr e =>
      if negb (String.eqb (pg_code e) "PGRST116") then
        log Error "Error checking follow status:" ;;;
        throw (ErrorObject (pg_message e))
      else ret (JBool (truthy JNull))
  | PgOk data _ => ret (JBool (truthy data))
  end.

(** [(await supabase.auth.getUser()).data.user?.id] *)
Definition current_user_id (r : UserResult) : JsVal :=
  match data_user r with
  | Some u => JStr (user_id u)
  | None => JUndefined
  end.

Definition updateUserProfile_query (profileUpdate id : JsVal) : Query :=
  returning (eq "id" id (from "profiles" (Update profileUpdate))).

Definition updateUserProfile (profileUpdate : JsVal) : Async JsVal :=
  u <- await AuthGetUser ;;
  r <- await (DbQuery (updateUserProfile_query profileUpdate (current_user_id u))) ;;
  match r with
  | PgErr e =>
      log Error "Failed to update user profile:" ;;;
      throw (ErrorObject (pg_message e))
  | PgOk _ _ => ret JUndefined
  end.

Definition getUserCount_query : Query :=
  from "profiles" (Select [Col "id"] true true).

(** [count || 0] *)
Definition count_or_zero (count : option N) : Z :=
  match count with
  | Some n => Z.of_N n
  | None => 0
  end.

Definition getUserCount : Async JsVal :=
  r <- await (DbQuery getUserCount_query) ;;
  match r with
  | PgErr e =>
      log Error "Failed to fetch user count:" ;;;
      throw (ErrorObject (pg_message e))
  | PgOk _ count => ret (JNum (count_or_zero count))
  end.

End Follows.

(* ===================================================================== *)
(** ** The ten wrappers as one family *)
(* ===================================================================== *)

Module Wrappers.
Import ApiService Follows.

Inductive Op :=
| FetchOwnProfile
| UpdateProfile (updates : JsVal)
| UploadAvatar (file : File)
| CreatePost (content : string) (imageFile : option File)
| GetPosts (limit offset : Z)
| FollowUser (user_to_follow_id : string)
| UnfollowUser (user_to_unfollow_id : string)
| IsFollowing (target_user_id : string)
| UpdateUserProfile (profileUpdate : JsVal)
| GetUserCount.

Definition exec (op : Op) : Async JsVal :=
  match op with
  | FetchOwnProfile => fetchOwnProfile
  | UpdateProfile updates => updateProfile updates
  | UploadAvatar file => uploadAvatar file
  | CreatePost content imageFile => createPost content imageFile
  | GetPosts limit offset => getPosts limit offset
  | FollowUser id => followUser id
  | UnfollowUser id => unfollowUser id
  | IsFollowing id => isFollowing id
  | UpdateUserProfile profileUpdate => updateUserProfile profileUpdate
  | GetUserCount => getUserCount
  end.

(** The answer reports an error: an error result, or a rejection. *)
Definition reports_error (ev : Event) : bool :=
  match ev with
  | EvGetSession (Fulfilled (SessionData _)) => false
  | EvGetSession _ => true
  | EvGetUser (Fulfilled (UserData _)) => false
  | EvGetUser _ => true
  | EvQuery _ (Fulfilled (PgOk _ _)) => false
  | EvQuery _ _ => true
  | EvUpload _ _ _ _ _ (Fulfilled UploadOk) => false
  | EvUpload _ _ _ _ _ _ => true
  | EvPublicUrl _ _ _ | EvNow _ | EvLog _ _ => false
  end.

(** Requests that go to the backend service (auth, database, storage). *)
Definition is_backend_call (ev : Event) : bool :=
  match ev with
  | EvGetSession _ | EvGetUser _ | EvQuery _ _ | EvUpload _ _ _ _ _ _ => true
  | EvPublicUrl _ _ _ | EvNow _ | EvLog _ _ => false
  end.

Definition is_session_lookup (ev : Event) : bool :=
  match ev with EvGetSession _ | EvGetUser _ => true | _ => false end.
Definition is_query (ev : Event) : bool :=
  match ev with EvQuery _ _ => true | _ => false end.
Definition is_upload (ev : Event) : bool :=
  match ev with EvUpload _ _ _ _ _ _ => true | _ => false end.

Definition count (p : Event -> bool) (tr : list Event) : nat :=
  List.length (filter p tr).

(** The failure is surfaced: the wrapper returns null or throws. *)
Definition surfaced (o : Outcome JsVal) : bool :=
  match o with
  | Returned JNull | Threw _ => true
  | Returned _ => false
  end.

(** The payloads of the [update] requests of a trace, with their filters. *)
Fixpoint updates_sent (tr : list Event) : list (string * JsVal * list (string * JsVal)) :=
  match tr with
  | [] => []
  | EvQuery q _ :: rest =>
      match q_verb q with
      | Update payload => (q_table q, payload, q_eq q) :: updates_sent rest
      | _ => updates_sent rest
      end
  | _ :: rest => updates_sent rest
  end.


End Wrappers.

(* ===================================================================== *)
(** ** The auth provider: the effect of [AuthProvider] as an event system *)
(* ===================================================================== *)

Module AuthProvider.
Import ApiService.

(** What the effect asks of the SDK and of the page, in the order asked. *)
Inductive Call :=
| OnAuthStateChange (sub : nat)      (* supabase.auth.onAuthStateChange(cb), giving subscription [sub] *)
| GetSession                         (* supabase.auth.getSession() *)
| Db (q : Query)                     (* a query on a table *)
| Unsubscribe (sub : nat)            (* subscription.unsubscribe() *)
| ChannelSubscribe (name : string)   (* supabase.channel(name)...subscribe(), as PostDetail does *)
| AddEventListener (type : string)
| RemoveEventListener (type : string)
| SetTimeout (ms : N)
| Console (level : LogLevel) (message : string).

Record State := {
  (* the four pieces of React state *)
  user : option User;
  session : option Session;
  loading : bool;
  isAdmin : bool;
  (* the closure of the effect *)
  isMounted : bool;                  (* isMounted.current *)
  subscription : nat;                (* the handle onAuthStateChange gave *)
  (* what is suspended or scheduled *)
  sessionCheck : bool;               (* initializeAuth waits for getSession *)
  fetches : list string;             (* handleAuthStateChange runs waiting for
                                        fetchUserProfile(userId), oldest first *)
  timers : list N;                   (* due times of the pending timeouts *)
  now : N;                           (* milliseconds since the mount *)
  calls : list Call                  (* issued so far, oldest first *)
}.

Definition setUser (u : option User) (st : State) : State :=
  {| user := u; session := session st; loading := loading st;
     isAdmin := isAdmin st; isMounted := isMounted st;
     subscription := subscription st; sessionCheck := sessionCheck st;
     fetches := fetches st; timers := timers st; now := now st;
     calls := calls st |}.

Definition setSession (s : option Session) (st : State) : State :=
  {| user := user st; session := s; loading := loading st;
     isAdmin := isAdmin st; isMounted := isMounted st;
     subscription := subscription st; sessionCheck := sessionCheck st;
     fetches := fetches st; timers := timers st; now := now st;
     calls := calls st |}.

Definition setLoading (l : bool) (st : State) : State :=
  {| user := user st; session := session st; loading := l;
     isAdmin := isAdmin st; isMounted := isMounted st;
     subscription := subscription st; sessionCheck := sessionCheck st;
     fetches := fetches st; timers := timers st; now := now st;
     calls := calls st |}.

Definition setIsAdmin (a : bool) (st : State) : State :=
  {| user := user st; session := session st; loading := loading st;
     isAdmin := a; isMounted := isMounted st;
     subscription := subscription st; sessionCheck := sessionCheck st;
     fetches := fetches st; timers := timers st; now := now st;
     calls := calls st |}.

Definition setMounted (m : bool) (st : State) : State :=
  {| user := user st; session := session st; loading := loading st;
     isAdmin := isAdmin st; isMounted := m;
     subscription := subscription st; sessionCheck := sessionCheck st;
     fetches := fetches st; timers := timers st; now := now st;
     calls := calls st |}.

Definition setSessionCheck (p : bool) (st : State) : State :=
  {| user := user st; session := session st; loading := loading st;
     isAdmin := isAdmin st; isMounted := isMounted st;
     subscription := subscription st; sessionCheck := p;
     fetches := fetches st; timers := timers st; now := now st;
     calls := calls st |}.

Definition setFetches (f : list string) (st : State) : State :=
  {| user := user st; session := session st; loading := loading st;
     isAdmin := isAdmin st; isMounted := isMounted st;
     subscription := subscription st; sessionCheck := sessionCheck st;
     fetches := f; timers := timers st; now := now st;
     calls := calls st |}.

Definition setTimers (t : list N) (st : State) : State :=
  {| user := user st; session := session st; loading := loading st;
     isAdmin := isAdmin st; isMounted := isMounted st;
     subscription := subscription st; sessionCheck := sessionCheck st;
     fetches := fetches st; timers := t; now := now st;
     calls := calls st |}.

Definition setNow (n : N) (st : State) : State :=
  {| user := user st; session := session st; loading := loading st;
     isAdmin := isAdmin st; isMounted := isMounted st;
     subscription := subscription st; sessionCheck := sessionCheck st;
     fetches := fetches st; timers := timers st; now := n;
     calls := calls st |}.

Definition issue (c : Call) (st : State) : State :=
  {| user := user st; session := session st; loading := loading st;
     isAdmin := isAdmin st; isMounted := isMounted st;
     subscription := subscription st; sessionCheck := sessionCheck st;
     fetches := fetches st; timers := timers st; now := now st;
     calls := calls st ++ [c] |}.

(** [if (isMounted.current) f] *)
Definition whenMounted (f : State -> State) (st : State) : State :=
  if isMounted st then f st else st.

Definition fetchUserProfile_query (userId : string) : Query :=
  single (eq "id" (JStr userId) (from "profiles" (select [Col "is_admin"]))).

(** [data?.is_admin ?? false], a boolean column. *)
Definition is_admin_flag (data : JsVal) : bool :=
  truthy (nullish_or (get data "is_admin") (JBool false)).

(** [fetchUserProfile] from its await on: the state after its logging, and
    the [isAdmin] of the object it returns. *)
Definition fetchUserProfile_resume (r : Settled PgResponse) (st : State)
  : State * bool :=
  match r with
  | Fulfilled resp =>
      if negb (isMounted st) then (st, false)
      else match resp with
           | PgErr _ => (issue (Console Error "Error fetching admin status") st, false)
           | PgOk data _ => (st, is_admin_flag data)
           end
  | Rejected _ => (issue (Console Error "Exception in fetchUserProfile") st, false)
  end.

(** The [finally] of [handleAuthStateChange]. *)
Definition handle_finally (st : State) : State :=
  whenMounted (setLoading false) st.

(** [handleAuthStateChange] up to its await, or to its end when the session
    has no user. *)
Definition handleAuthStateChange (s : option Session) (st : State) : State :=
  if negb (isMounted st) then st
  else
    let st := setSession s st in
    let st := setUser (match s with Some x => session_user x | None => None end) st in
    match s with
    | Some {| session_user := Some u |} =>
        let st := issue (Db (fetchUserProfile_query (user_id u))) st in
        setFetches (fetches st ++ [user_id u]) st
    | _ =>
        handle_finally (whenMounted (setIsAdmin false) st)
    end.

(** [handleAuthStateChange] from its await on. *)
Definition handleAuthStateChange_resume (r : Settled PgResponse) (st : State)
  : State :=
  let (st, admin) := fetchUserProfile_resume r st in
  handle_finally (whenMounted (setIsAdmin admin) st).

(** The value of [loading] the effect closed over: the effect has no
    dependencies and runs after the first render, where [loading] is the
    initial [useState(true)]. *)
Definition loading_at_mount : bool := true.

(** The callback given to [setTimeout]. *)
Definition timeout_handler (st : State) : State :=
  if isMounted st && loading_at_mount then
    setLoading false
      (issue (Console Warn "Auth loading timed out, forcing completion") st)
  else st.

Definition clear_all (st : State) : State :=
  setIsAdmin false (setSession None (setUser None st)).

(** [initializeAuth] from its await on. *)
Definition initializeAuth_resume (r : Settled SessionResult) (st : State)
  : State :=
  match r with
  | Fulfilled res =>
      let st := issue (Console Info "Initial session check") st in
      let st := setTimers (timers st ++ [now st + 5000]%N) (issue (SetTimeout 5000) st) in
      match data_session res with
      | Some s => handleAuthStateChange (Some s) st
      | None => setLoading false (clear_all st)
      end
  | Rejected _ =>
      let st := issue (Console Error "Error fetching initial session") st in
      whenMounted (fun st => setLoading false (clear_all st)) st
  end.

(** The body of the effect, run once at mount: the state after it. *)
Definition mount (sub : nat) : State :=
  let st := {| user := None; session := None; loading := true; isAdmin := false;
               isMounted := true; subscription := sub; sessionCheck := false;
               fetches := []; timers := []; now := 0%N; calls := [] |} in
  let st := issue (OnAuthStateChange sub) st in
  let st := setSessionCheck true (issue GetSession st) in
  issue (AddEventListener "beforeunload") st.

(** The function the effect returns. *)
Definition cleanup (st : State) : State :=
  let st := setMounted false st in
  let st := issue (Unsubscribe (subscription st)) st in
  issue (RemoveEventListener "beforeunload") st.

(** What the environment does to a mounted provider. *)
Inductive Occurrence :=
| SessionSettled (r : Settled SessionResult)      (* getSession() settles *)
| AuthStateChange (event : string) (s : option Session)
                                                  (* the SDK calls the callback *)
| ProfileSettled (i : nat) (r : Settled PgResponse)
                                                  (* the i-th waiting fetch settles *)
| Unmount.                                        (* React runs the cleanup *)

Fixpoint remove_nth {A} (i : nat) (l : list A) : list A :=
  match l, i with
  | [], _ => []
  | _ :: rest, O => rest
  | x :: rest, Datatypes.S j => x :: remove_nth j rest
  end.

Definition occur (e : Occurrence) (st : State) : State :=
  match e with
  | SessionSettled r =>
      if sessionCheck st then initializeAuth_resume r (setSessionCheck false st)
      else st
  | AuthStateChange _ s => handleAuthStateChange s st
  | ProfileSettled i r =>
      match nth_error (fetches st) i with
      | Some _ =>
          handleAuthStateChange_resume r (setFetches (remove_nth i (fetches st)) st)
      | None => st
      end
  | Unmount => cleanup st
  end.

(** Time passes: the timeouts that come due run. *)
Definition elapse (ms : N) (st : State) : State :=
  let st := setNow (now st + ms)%N st in
  let due := filter (fun t => N.leb t (now st)) (timers st) in
  let st := setTimers (filter (fun t => negb (N.leb t (now st))) (timers st)) st in
  fold_left (fun st _ => timeout_handler st) due st.

Inductive Step :=
| Elapse (ms : N)
| Occur (e : Occurrence).

Definition step (x : Step) (st : State) : State :=
  match x with
  | Elapse ms => elapse ms st
  | Occur e => occur e st
  end.

Fixpoint run (steps : list Step) (st : State) : State :=
  match steps with
  | [] => st
  | x :: rest => run rest (step x st)
  end.

(** The time a schedule takes. *)
Fixpoint duration (steps : list Step) : N :=
  match steps with
  | [] => 0%N
  | Elapse ms :: rest => (ms + duration rest)%N
  | Occur _ :: rest => duration rest
  end.

Fixpoint unmounts (steps : list Step) : nat :=
  match steps with
  | [] => 0
  | Occur Unmount :: rest => Datatypes.S (unmounts rest)
  | _ :: rest => unmounts rest
  end.

Definition is_auth_subscribe (c : Call) : bool :=
  match c with OnAuthStateChange _ => true | _ => false end.
Definition is_channel_subscribe (c : Call) : bool :=
  match c with ChannelSubscribe _ => true | _ => false end.
Definition is_unsubscribe (c : Call) : bool :=
  match c with Unsubscribe _ => true | _ => false end.
Definition is_getSession (c : Call) : bool :=
  match c with GetSession => true | _ => false end.

End AuthProvider.

(* ===================================================================== *)
(** ** The migration: [handle_new_user] and its trigger *)
(* ===================================================================== *)

Module Migration.

(** A value inside a jsonb object: JSON null, a JSON string, or any other
    JSON value, kept as the text Postgres prints for it. *)
Inductive jsonb_value :=
| JsonNull
| JsonString (s : string)
| JsonOther (text : string).

(** A jsonb object. *)
Definition jsonb := list (string * jsonb_value).

Fixpoint field (j : jsonb) (key : string) : option jsonb_value :=
  match j with
  | [] => None
  | (k, v) :: rest => if String.eqb key k then Some v else field rest key
  end.

(** [j ->> key]: the field as text; NULL when [j] is NULL, when the key is
    absent, and when the field is JSON null. *)
Definition get_text (j : option jsonb) (key : string) : option string :=
  match j with
  | None => None
  | Some o =>
      match field o key with
      | Some (JsonString s) => Some s
      | Some (JsonOther text) => Some text
      | Some JsonNull | None => None
      end
  end.

(** [COALESCE(a, b, ...)]: the first argument that is not NULL. *)
Fixpoint coalesce (args : list (option string)) : option string :=
  match args with
  | [] => None
  | Some v :: _ => Some v
  | None :: rest => coalesce rest
  end.

(** [split_part(s, delimiter, n)] for a one-character delimiter and
    [n >= 1]: the n-th piece, the empty string when there are fewer pieces,
    NULL when [s] is NULL. *)
Definition split_part (s : option string) (delimiter : ascii) (n : nat)
  : option string :=
  match s with
  | None => None
  | Some s => Some (nth (n - 1) (split delimiter s) EmptyString)
  end.

(** A row of [auth.users], with the columns the trigger reads. *)
Record auth_user := {
  id : string;
  email : option string;
  raw_user_meta_data : option jsonb
}.

(** A row of [public.profiles], with the columns the trigger writes. *)
Record profile := {
  profile_id : string;
  username : option string;
  display_name : option string;
  avatar_url : option string
}.

Record Database := {
  auth_users : list auth_user;
  profiles : list profile
}.

(** The [VALUES (...)] of the insert in [handle_new_user]. *)
Definition new_profile (new : auth_user) : profile :=
  {| profile_id := id new;
     username :=
       coalesce [ get_text (raw_user_meta_data new) "username";
                  split_part (email new) "@" 1 ];
     display_name :=
       coalesce [ get_text (raw_user_meta_data new) "display_name";
                  get_text (raw_user_meta_data new) "username";
                  split_part (email new) "@" 1 ];
     avatar_url := get_text (raw_user_meta_data new) "avatar_url" |}.

(** [handle_new_user()]: insert the profile, return [new]. *)
Definition handle_new_user (new : auth_user) (db : Database)
  : auth_user * Database :=
  (new, {| auth_users := auth_users db;
           profiles := profiles db ++ [new_profile new] |}).

(** An insert into [auth.users] with the trigger [on_auth_user_created]
    (AFTER INSERT, FOR EACH ROW) in place. *)
Definition insert_auth_user (new : auth_user) (db : Database) : Database :=
  snd (handle_new_user new
         {| auth_users := auth_users db ++ [new]; profiles := profiles db |}).

(** The argument of [supabase.auth.signUp] that [signUp] builds. *)
Record SignUpRequest := {
  su_email : string;
  su_password : string;
  su_emailRedirectTo : string;
  su_data : jsonb
}.

Definition signUp_request (email password username redirectUrl : string)
  : SignUpRequest :=
  {| su_email := email; su_password := password;
     su_emailRedirectTo := redirectUrl;
     su_data := [ ("username", JsonString username);
                  ("display_name", JsonString username) ] |}.

(** The row the auth service inserts for an accepted sign-up: it keeps
    [options.data] as [raw_user_meta_data]. *)
Definition signed_up_user (uid : string) (req : SignUpRequest) : auth_user :=
  {| id := uid; email := Some (su_email req);
     raw_user_meta_data := Some (su_data req) |}.

End Migration.

(* ===================================================================== *)
(** ** What the properties are stated with *)
(* ===================================================================== *)

Section WrapperProperties.
Import ApiService Follows Wrappers.

(** The keys of [allowedUpdates]. *)
Definition updatable_fields : list string :=
  ["username"; "display_name"; "bio"; "location"; "avatar_url"].



(** The upload of a trace failed with an error result. *)
Definition upload_failed (ev : Event) : bool :=
  match ev with
  | EvUpload _ _ _ _ _ (Fulfilled (UploadErr _)) => true
  | _ => false
  end.




(** An error the code does not look at: [updateUserProfile] reads
    [data.user?.id] of [getUser]'s result and never its [error]. *)
Definition unchecked (ev : Event) : bool :=
  match ev with
  | EvGetUser (Fulfilled (UserError _)) => true
  | _ => false
  end.

(** An error the code reads as an answer: [isFollowing] takes the no-rows
    code for "not following". *)
Definition tolerated (op : Op) (ev : Event) : bool :=
  match op, ev with
  | IsFollowing _, EvQuery _ (Fulfilled (PgErr e)) =>
      String.eqb (pg_code e) "PGRST116"
  | _, _ => false
  end.

(** After the first error that is looked at, nothing more goes to the
    backend. *)
Fixpoint stops_at_error (tr : list Event) : bool :=
  match tr with
  | [] => true
  | ev :: rest =>
      if reports_error ev && negb (unchecked ev)
      then negb (existsb is_backend_call rest)
      else stops_at_error rest
  end.

(** Some error of the trace is neither unchecked nor tolerated. *)
Definition has_failure (op : Op) (tr : list Event) : bool :=
  existsb (fun ev => reports_error ev && negb (unchecked ev)
                     && negb (tolerated op ev)) tr.

(** The property of C1, as a check of one outcome and its trace. *)
Definition fail_fast (op : Op) (o : Outcome JsVal) (tr : list Event) : bool :=
  (count is_query tr <=? 1)%nat && (count is_upload tr <=? 1)%nat
  && (count is_session_lookup tr <=? 2)%nat
  && stops_at_error tr
  && (if has_failure op tr then surfaced o else true).

(** The fields the specification gives a Profile. *)
Definition spec_Profile_fields : list string :=
  ["id"; "username"; "display_name"; "bio"; "avatar_url"; "is_admin"].

(** The projection of an embedded table in a select list. *)
Definition embedded (table : string) (cols : list Column) : list string :=
  flat_map (fun c => match c with
                     | Embed t cs => if String.eqb t table then cs else []
                     | _ => []
                     end) cols.

(** The plain columns a query selects. *)
Definition selected (q : Query) : list string :=
  match q_verb q with
  | Select cols _ _ =>
      flat_map (fun c => match c with Col name => [name] | _ => [] end) cols
  | _ => []
  end.

(** The parameter type of [updateUserProfile]. *)
Definition updateUserProfile_fields : list string :=
  ["username"; "display_name"; "bio"; "location"].

(** Every profile field the code names: in the payload of [updateProfile],
    in the parameter of [updateUserProfile], in the projection joined into
    posts, and in the admin check of the auth provider. *)
Definition profile_fields_in_code : list string :=
  updatable_fields ++ updateUserProfile_fields
  ++ embedded "profiles" getPosts_columns
  ++ selected (AuthProvider.fetchUserProfile_query EmptyString).

End WrapperProperties.

(** The characters of [s] before its first [c], all of [s] if it has none:
    with [c = "@"], the local part of an email address. *)
Fixpoint before (c : ascii) (s : string) : string :=
  match s with
  | EmptyString => EmptyString
  | String a rest => if Ascii.eqb a c then EmptyString else String a (before c rest)
  end.

Section ProviderProperties.
Import AuthProvider.
Local Open Scope N_scope.

(** Calls that neither subscribe, nor unsubscribe, nor check the session. *)
Definition quiet (c : Call) : bool :=
  negb (is_auth_subscribe c || is_channel_subscribe c
        || is_unsubscribe c || is_getSession c).

(** [st'] comes from [st] by issuing [new], with the same subscription. *)
Definition issues (st st' : State) (new : list Call) : Prop :=
  calls st' = calls st ++ new /\ subscription st' = subscription st.

(** Every pending timeout is due in the future. *)
Definition future (st : State) : Prop :=
  forall t, In t (timers st) -> now st < t.

(** [loading] is off, or the provider is gone, or a timeout is pending that
    comes due by [deadline]. *)
Definition armed (deadline : N) (st : State) : Prop :=
  loading st = false \/ isMounted st = false
  \/ exists t, In t (timers st) /\ t <= deadline.

(** No handler starts while another one waits for its profile fetch: each
    answer of the session check and each auth state change finds no fetch
    pending. *)
Fixpoint orderly (steps : list Step) (st : State) : bool :=
  match steps with
  | [] => true
  | x :: rest =>
      match x with
      | Occur (SessionSettled _) | Occur (AuthStateChange _ _) =>
          match fetches st with [] => true | _ => false end
      | _ => true
      end && orderly rest (step x st)
  end.

(** [isAdmin] is on only with a session, and a fetch waits only with one. *)
Definition admin_has_session (st : State) : Prop :=
  (isAdmin st = true -> session st <> None)
  /\ (fetches st <> [] -> session st <> None).

End ProviderProperties.

(* ===================================================================== *)
(** ** Sample environments *)
(* ===================================================================== *)

(** A user and her profile row. *)
Definition alice : User := {| user_id := "alice" |}.
Definition alice_row : JsVal :=
  JObj [("id", JStr "alice"); ("username", JStr "alice"); ("bio", JNull)].

(** Alice is signed in and every call succeeds. *)
Definition signed_in_backend : Backend unit :=
  scripted {| on_getSession :=
                Fulfilled (SessionData (Some {| session_user := Some alice |}));
              on_getUser := Fulfilled (UserData alice);
              on_query := fun _ => Fulfilled (PgOk alice_row None);
              on_upload := Fulfilled UploadOk;
              on_publicUrl := fun bucket path => ("https://cdn/" ++ path)%string;
              on_now := 1700000000000%N |}.

(** A backend whose storage refuses the upload. *)
Definition storage_down_backend : Backend unit :=
  scripted {| on_getSession :=
                Fulfilled (SessionData (Some {| session_user := Some alice |}));
              on_getUser := Fulfilled (UserData alice);
              on_query := fun _ => Fulfilled (PgOk alice_row None);
              on_upload := Fulfilled (UploadErr {| storage_message := "quota" |});
              on_publicUrl := fun bucket path => ("https://cdn/" ++ path)%string;
              on_now := 1700000000000%N |}.

(** A file to upload. *)
Definition photo : File := {| file_name := "cat.png" |}.

(** The query finds no row: PostgREST answers with the code PGRST116. *)
Definition no_rows : PgError :=
  {| pg_message := "JSON object requested, multiple (or no) rows returned";
     pg_code := "PGRST116" |}.

(** Every query is answered with [no_rows]. *)
Definition no_rows_backend : Backend unit :=
  scripted {| on_getSession :=
                Fulfilled (SessionData (Some {| session_user := Some alice |}));
              on_getUser := Fulfilled (UserData alice);
              on_query := fun _ => Fulfilled (PgErr no_rows);
              on_upload := Fulfilled UploadOk;
              on_publicUrl := fun bucket path => ("https://cdn/" ++ path)%string;
              on_now := 1700000000000%N |}.

(** Every query is refused by a row-level-security policy. *)
Definition denied : PgError :=
  {| pg_message := "new row violates row-level security policy";
     pg_code := "42501" |}.

Definition denied_backend : Backend unit :=
  scripted {| on_getSession :=
                Fulfilled (SessionData (Some {| session_user := Some alice |}));
              on_getUser := Fulfilled (UserData alice);
              on_query := fun _ => Fulfilled (PgErr denied);
              on_upload := Fulfilled UploadOk;
              on_publicUrl := fun bucket path => ("https://cdn/" ++ path)%string;
              on_now := 1700000000000%N |}.

(** [getUser] fails; the database accepts whatever it is sent. *)
Definition no_user_backend : Backend unit :=
  scripted {| on_getSession := Fulfilled (SessionError {| auth_message := "expired" |});
              on_getUser := Fulfilled (UserError {| auth_message := "expired" |});
              on_query := fun _ => Fulfilled (PgOk (JArr []) None);
              on_upload := Fulfilled UploadOk;
              on_publicUrl := fun bucket path => ("https://cdn/" ++ path)%string;
              on_now := 1700000000000%N |}.

(** The caller asks for [is_admin] along with a new bio. *)
Definition escalation : JsVal :=
  JObj [("bio", JStr "hi"); ("is_admin", JBool true)].

(** A session of an administrator. *)
Definition admin_session : Session := {| session_user := Some alice |}.

(** The session check answers with an administrator's session, the SDK
    then reports a sign-out, and only then does the profile fetch that the
    first step started come back. *)
Definition late_admin_answer : list AuthProvider.Step :=
  [ AuthProvider.Occur
      (AuthProvider.SessionSettled (Fulfilled (SessionData (Some admin_session))));
    AuthProvider.Occur (AuthProvider.AuthStateChange "SIGNED_OUT" None);
    AuthProvider.Occur
      (AuthProvider.ProfileSettled 0
         (Fulfilled (PgOk (JObj [("is_admin", JBool true)]) None))) ].

(* ===================================================================== *)
(** ** Proof automation *)
(* ===================================================================== *)

(** Symbolic execution of a wrapper against an unknown backend: name the
    backend's next answer, split it into its cases, go on. *)
Ltac walk :=
  repeat (cbn -[String.eqb ApiService.finalUpdates ApiService.filePath];
          match goal with
          | |- context [respond ?bk ?e ?s] =>
              destruct (respond bk e s) as [? ?]
          | |- context [ApiService.finalUpdates (JObj [("avatar_url", JStr ?u)])] =>
              change (ApiService.finalUpdates (JObj [("avatar_url", JStr u)]))
                with (JObj [("avatar_url", JStr u)])
          | |- context [data_session ?x] => is_var x; destruct x
          | |- context [ApiService.user_id_of ?x] =>
              is_var x; destruct x as [[[? | ]] | ]
          | |- context [match ?x with _ => _ end] => is_var x; destruct x
          | |- context [if ?c then _ else _] => destruct c eqn:?
          end).


(** Take an occurrence of the auth provider apart: one goal per path
    through its handlers. *)
Ltac paths e st :=
  destruct st as [u s l a m sub sc f t n c];
  destruct e as [[[[[[x | ]] | ] | err] | v] | ev [[[x | ]] | ]
                | i [[data cnt | err] | v] | ];
  unfold AuthProvider.occur, AuthProvider.initializeAuth_resume,
    AuthProvider.handleAuthStateChange_resume,
    AuthProvider.fetchUserProfile_resume, AuthProvider.handleAuthStateChange,
    AuthProvider.handle_finally, AuthProvider.clear_all,
    AuthProvider.whenMounted, AuthProvider.cleanup; cbn;
  repeat match goal with
         | |- context [nth_error ?l ?i] => destruct (nth_error l i) eqn:?; cbn
         | |- context [if ?b then _ else _] => is_var b; destruct b; cbn
         | |- context [if negb ?b then _ else _] => is_var b; destruct b; cbn
         end.

(* ===================================================================== *)
(** ** Facts about the building blocks of the wrappers *)
(* ===================================================================== *)

Section BuildingBlocks.
Import ApiService Follows Wrappers.




Lemma finalUpdates_keys (updates : JsVal) (k : string) :
  In k (keys (finalUpdates updates)) -> In k updatable_fields.
Proof.
  unfold keys, finalUpdates, fromEntries, entries. intros H.
  apply in_map_iff in H. destruct H as ([k' v] & <- & H).
  apply filter_In in H. destruct H as [H _].
  unfold allowedUpdates, entries in H. simpl in H.
  unfold updatable_fields. simpl.
  repeat (destruct H as [H | H]; [ injection H as <- _; tauto | ]).
  contradiction.
Qed.

Lemma finalUpdates_values (updates : JsVal) (k : string) (v : JsVal) :
  In (k, v) (entries (finalUpdates updates)) ->
  v = get updates k /\ not_nullish v = true.
Proof.
  unfold finalUpdates, fromEntries, entries. intros H.
  apply filter_In in H. destruct H as [H Hv]. simpl in Hv.
  split; [ | exact Hv ].
  unfold allowedUpdates, entries in H. simpl in H.
  repeat (destruct H as [H | H]; [ now injection H as <- <- | ]).
  contradiction.
Qed.

Lemma is_admin_not_updatable : ~ In "is_admin" updatable_fields.
Proof.
  unfold updatable_fields. simpl. intros H.
  repeat (destruct H as [H | H]; [ discriminate | ]). exact H.
Qed.

End BuildingBlocks.

(* ===================================================================== *)
(** ** C1: no wrapper retries; how errors are surfaced *)
(* ===================================================================== *)

Section FailFast.
Import ApiService Follows Wrappers.

Lemma stops_at_error_spec (tr : list Event) :
  stops_at_error tr = true ->
  forall pre ev post,
    tr = pre ++ ev :: post ->
    reports_error ev = true -> unchecked ev = false ->
    forall ev', In ev' post -> is_backend_call ev' = false.
Proof.
  induction tr as [ | ev0 rest IH]; intros Hs pre ev post Heq He Hu ev' Hin.
  - destruct pre; discriminate.
  - simpl in Hs.
    destruct pre as [ | p pre]; simpl in Heq; injection Heq as -> ->.
    + rewrite He, Hu in Hs. simpl in Hs.
      apply negb_true_iff in Hs.
      destruct (is_backend_call ev') eqn:Hb; [ | reflexivity ].
      assert (existsb is_backend_call post = true)
        by (apply existsb_exists; now exists ev').
      congruence.
    + destruct (reports_error p && negb (unchecked p)) eqn:Hp.
      * apply negb_true_iff in Hs.
        destruct (is_backend_call ev') eqn:Hb; [ | reflexivity ].
        assert (existsb is_backend_call (pre ++ ev :: post) = true).
        { apply existsb_exists. exists ev'. split; [ | exact Hb ].
          apply in_or_app. right. now right. }
        congruence.
      * now apply (IH Hs pre ev post).
Qed.

Context {S : Type} (b : Backend S).

Lemma fail_fast_holds (op : Op) (s : S) :
  fail_fast op (outcome b (exec op) s) (trace b (exec op) s) = true.
Proof.
  unfold fail_fast, has_failure, outcome, trace.
  destruct op; unfold exec;
    [ unfold fetchOwnProfile, getUserId
    | unfold updateProfile, fetchOwnProfile, getUserId
    | unfold uploadAvatar, updateProfile, fetchOwnProfile, getUserId
    | unfold createPost, insertPing, getUserId
    | unfold getPosts
    | unfold followUser
    | unfold unfollowUser
    | unfold isFollowing
    | unfold updateUserProfile
    | unfold getUserCount ];
    walk; try reflexivity; try congruence.
  (* isFollowing on the no-rows code: the error is tolerated *)
  match goal with
  | H : negb ?c = false, H' : negb ?c || false = true |- _ =>
      rewrite H in H'; discriminate
  end.
Qed.

(** C1 (as the code has it).  Each invocation of a wrapper sends at most
    one database query and at most one storage upload, and looks the session
    up at most twice (a wrapper that calls another wrapper looks it up
    again).  No wrapper retries: after a call reports an error that the code
    looks at, nothing more is sent to the backend.  Such a failure is
    surfaced as a null result or a throw, except that [isFollowing] reads
    the no-rows code PGRST116 as the answer [false]. *)
Theorem wrappers_fail_fast (op : Op) (s : S) :
  let o := outcome b (exec op) s in
  let tr := trace b (exec op) s in
  (count is_query tr <= 1)%nat /\ (count is_upload tr <= 1)%nat
  /\ (count is_session_lookup tr <= 2)%nat
  /\ (forall pre ev post,
        tr = pre ++ ev :: post ->
        reports_error ev = true -> unchecked ev = false ->
        forall ev', In ev' post -> is_backend_call ev' = false)
  /\ (forall ev,
        In ev tr -> reports_error ev = true -> unchecked ev = false ->
        surfaced o = true \/ tolerated op ev = true).
Proof.
  intros o tr. pose proof (fail_fast_holds op s) as H.
  fold o tr in H. unfold fail_fast in H.
  apply andb_prop in H. destruct H as [H Hsurfaced].
  apply andb_prop in H. destruct H as [H Hstops].
  apply andb_prop in H. destruct H as [H Hlookups].
  apply andb_prop in H. destruct H as [Hqueries Huploads].
  split; [ now apply Nat.leb_le | ].
  split; [ now apply Nat.leb_le | ].
  split; [ now apply Nat.leb_le | ].
  split; [ now apply stops_at_error_spec | ].
  intros ev Hin He Hu.
  destruct (tolerated op ev) eqn:Ht; [ now right | left ].
  assert (Hf : has_failure op tr = true).
  { apply existsb_exists. exists ev. split; [ exact Hin | ].
    now rewrite He, Hu, Ht. }
  now rewrite Hf in Hsurfaced.
Qed.

End FailFast.

(** C1 as stated fails in three places.  [isFollowing] gets an error and
    returns [false], which is neither null nor a throw.  [uploadAvatar]
    issues [getSession] twice in one invocation.  [updateUserProfile] goes on
    to send its update after [getUser] reported an error, and returns
    normally. *)
Lemma wrappers_not_uniform :
  (run no_rows_backend (Wrappers.exec (Wrappers.IsFollowing "bob")) tt
   = (Returned (JBool false),
      [EvQuery (Follows.isFollowing_query "bob") (Fulfilled (PgErr no_rows))],
      tt)
   /\ Wrappers.reports_error
        (EvQuery (Follows.isFollowing_query "bob") (Fulfilled (PgErr no_rows)))
      = true
   /\ Wrappers.surfaced (Returned (JBool false)) = false)
  /\ Wrappers.count Wrappers.is_session_lookup
       (trace signed_in_backend (Wrappers.exec (Wrappers.UploadAvatar photo)) tt)
     = 2%nat
  /\ run no_user_backend (Wrappers.exec (Wrappers.UpdateUserProfile escalation)) tt
     = (Returned JUndefined,
        [EvGetUser (Fulfilled (UserError {| auth_message := "expired" |}));
         EvQuery (Follows.updateUserProfile_query escalation JUndefined)
                 (Fulfilled (PgOk (JArr []) None))],
        tt).
Proof.
  repeat split.
Qed.

Example uploadAvatar_trace :
  run signed_in_backend (ApiService.uploadAvatar photo) tt
  = (Returned alice_row,
     [ EvGetSession (Fulfilled (SessionData (Some {| session_user := Some alice |})));
       EvNow 1700000000000%N;
       EvUpload "avatars" "avatars/alice/1700000000000_cat.png" photo "3600" true
                (Fulfilled UploadOk);
       EvPublicUrl "avatars" "avatars/alice/1700000000000_cat.png"
                   "https://cdn/avatars/alice/1700000000000_cat.png";
       EvGetSession (Fulfilled (SessionData (Some {| session_user := Some alice |})));
       EvQuery (ApiService.updateProfile_query "alice"
                  (JObj [("avatar_url",
                          JStr "https://cdn/avatars/alice/1700000000000_cat.png")]))
               (Fulfilled (PgOk alice_row None)) ],
     tt).
Proof. reflexivity. Qed.

Example followUser_denied :
  run denied_backend (Follows.followUser "bob") tt
  = (Threw (ErrorObject "new row violates row-level security policy"),
     [ EvQuery (Follows.followUser_query "bob") (Fulfilled (PgErr denied));
       EvLog Error "Failed to follow user:" ],
     tt).
Proof. reflexivity. Qed.

(* ===================================================================== *)
(** ** C2: what a profile update forwards *)
(* ===================================================================== *)

Section ProfileUpdates.
Import ApiService Follows Wrappers.
Context {S : Type} (b : Backend S).

Lemma finalUpdates_complete (updates : JsVal) (k : string) :
  In k updatable_fields -> not_nullish (get updates k) = true ->
  In (k, get updates k) (entries (finalUpdates updates)).
Proof.
  unfold finalUpdates, fromEntries, entries, allowedUpdates, updatable_fields.
  intros Hk Hv. apply filter_In. split; [ | exact Hv ].
  simpl in Hk. simpl.
  repeat (destruct Hk as [<- | Hk]; [ tauto | ]). contradiction.
Qed.

(** C2 (as the code has it).  [updateUserProfile] forwards the caller's
    record unchanged: once [getUser] has answered it sends one update of
    [profiles] whose payload is the record itself, filtered on [id] = the id
    of the user [getUser] reports, and on [id = undefined] when it reports
    none.  [ApiService.updateProfile] does not forward the record: for a
    session with a user it sends one update whose payload is built from the
    five updatable fields only, namely those the record gives a value that
    is neither undefined nor null, each with the caller's value, so
    [is_admin] is never sent; the update is filtered on [id] = the id of the
    session's user, and none is sent without such a user or with no such
    field. *)
Theorem profile_update_payloads (record : JsVal) (s : S) :
  updates_sent (trace b (updateUserProfile record) s)
  = match fst (respond b AuthGetUser s) with
    | Fulfilled (UserData u) =>
        [("profiles", record, [("id", JStr (user_id u))])]
    | Fulfilled (UserError _) =>
        [("profiles", record, [("id", JUndefined)])]
    | Rejected _ => []
    end
  /\ updates_sent (trace b (updateProfile record) s)
     = match fst (respond b AuthGetSession s) with
       | Fulfilled (SessionData (Some {| session_user := Some u |})) =>
           if String.eqb (user_id u) EmptyString then []
           else match keys (finalUpdates record) with
                | [] => []
                | _ :: _ =>
                    [("profiles", finalUpdates record, [("id", JStr (user_id u))])]
                end
       | _ => []
       end
  /\ (forall k, In k (keys (finalUpdates record)) -> In k updatable_fields)
  /\ ~ In "is_admin" (keys (finalUpdates record))
  /\ (forall k v, In (k, v) (entries (finalUpdates record)) <->
        In k updatable_fields /\ v = get record k /\ not_nullish v = true).
Proof.
  split; [ | split; [ | split; [ | split ] ] ].
  - unfold trace, updateUserProfile. cbn.
    destruct (respond b AuthGetUser s) as [[u | v] s1]; cbn; [ | reflexivity ].
    destruct (respond b (DbQuery (updateUserProfile_query record (current_user_id u))) s1)
      as [[[data cnt | e] | v3] s4]; cbn;
      try (destruct (respond b (Log Error "Failed to update user profile:") s4)
             as [[] s5]; cbn);
      destruct u; reflexivity.
  - unfold trace, updateProfile, fetchOwnProfile, getUserId.
    cbn -[String.eqb finalUpdates keys].
    destruct (respond b AuthGetSession s) as [[r | v] s1];
      cbn -[String.eqb finalUpdates keys]; [ | reflexivity ].
    destruct r as [[[[u | ]] | ] | err]; cbn -[String.eqb finalUpdates keys];
      try (destruct (respond b (Log Error "User not authenticated to update profile.") s1)
             as [[] s2]; reflexivity).
    destruct u as [uid]. cbn -[String.eqb finalUpdates keys].
    destruct (String.eqb uid EmptyString); cbn -[String.eqb finalUpdates keys].
    { destruct (respond b (Log Error "User not authenticated to update profile.") s1)
        as [[] s2]. reflexivity. }
    destruct (keys (finalUpdates record)) as [ | k ks];
      cbn -[String.eqb authenticated finalUpdates keys].
    + destruct (respond b (Log Warn "No valid updates provided for profile.") s1)
        as [[] s2]; cbn -[String.eqb authenticated finalUpdates keys].
      destruct (respond b AuthGetSession s2) as [[r2 | v2] s3];
        cbn -[String.eqb authenticated finalUpdates keys]; [ | reflexivity ].
      destruct (authenticated (user_id_of (data_session r2))) as [uid2 | ];
        cbn -[String.eqb authenticated finalUpdates keys].
      * destruct (respond b (DbQuery (fetchOwnProfile_query uid2)) s3)
          as [[[data cnt | e] | v3] s4]; cbn; try reflexivity.
        destruct (respond b (Log Error "Error fetching profile:") s4)
          as [[] s5]. reflexivity.
      * destruct (respond b (Log Error "User not authenticated to fetch profile.") s3)
          as [[] s4]. reflexivity.
    + destruct (respond b (DbQuery (updateProfile_query uid (finalUpdates record))) s1)
        as [[[data cnt | e] | v3] s4]; cbn -[finalUpdates keys];
        try (destruct (respond b (Log Error "Error updating profile:") s4)
               as [[] s5]; cbn -[finalUpdates keys]);
        reflexivity.
  - apply finalUpdates_keys.
  - intros Hk. apply finalUpdates_keys in Hk. now apply is_admin_not_updatable.
  - intros k v. split.
    + intros H. split.
      * apply (finalUpdates_keys record). unfold keys. apply in_map_iff.
        now exists (k, v).
      * now apply finalUpdates_values.
    + intros (Hk & -> & Hv). now apply finalUpdates_complete.
Qed.

End ProfileUpdates.

(** C2 as stated fails for [ApiService.updateProfile]: the record sent is
    not the caller's; [is_admin] has been dropped and the row is pinned to
    the caller's own id. *)
Lemma updateProfile_does_not_forward_unchanged :
  Wrappers.updates_sent
    (trace signed_in_backend (ApiService.updateProfile escalation) tt)
  = [("profiles", JObj [("bio", JStr "hi")], [("id", JStr "alice")])]
  /\ JObj [("bio", JStr "hi")] <> escalation.
Proof.
  split; [ reflexivity | discriminate ].
Qed.

Example updateUserProfile_forwards_unchanged :
  Wrappers.updates_sent
    (trace signed_in_backend (Follows.updateUserProfile escalation) tt)
  = [("profiles", escalation, [("id", JStr "alice")])].
Proof. reflexivity. Qed.

(** Without a user, [updateUserProfile] still sends its update, filtered on
    [id = undefined]. *)
Example updateUserProfile_without_user :
  Wrappers.updates_sent
    (trace no_user_backend (Follows.updateUserProfile escalation) tt)
  = [("profiles", escalation, [("id", JUndefined)])].
Proof. reflexivity. Qed.

(* ===================================================================== *)
(** ** C3: the safety timeout *)
(* ===================================================================== *)

Section ProviderTiming.
Import AuthProvider.
Local Open Scope N_scope.

(** What no occurrence does: set [loading] back to true, mount again, move
    the clock, drop a timeout, or arm one for another time than in 5 s. *)
Lemma occur_frame (e : Occurrence) (st : State) :
  (loading st = false -> loading (occur e st) = false)
  /\ (isMounted st = false -> isMounted (occur e st) = false)
  /\ now (occur e st) = now st
  /\ (forall t, In t (timers st) -> In t (timers (occur e st)))
  /\ (forall t, In t (timers (occur e st)) ->
        In t (timers st) \/ t = now st + 5000).
Proof.
  paths e st; repeat split; try tauto; try discriminate;
    intros t0 Hin; try (apply in_or_app; now left);
    apply in_app_or in Hin; destruct Hin as [Hin | [<- | []]]; tauto.
Qed.

Lemma timeouts_frame (due : list N) (st : State) :
  let st' := fold_left (fun st _ => timeout_handler st) due st in
  (loading st = false -> loading st' = false)
  /\ isMounted st' = isMounted st
  /\ timers st' = timers st
  /\ now st' = now st
  /\ (due <> [] -> isMounted st = true -> loading st' = false).
Proof.
  revert st. induction due as [ | t due IH]; intros st; simpl.
  - repeat split; tauto.
  - destruct (IH (timeout_handler st)) as (Hl & Hm & Ht & Hn & Hd).
    assert (Hh : isMounted (timeout_handler st) = isMounted st
                 /\ timers (timeout_handler st) = timers st
                 /\ now (timeout_handler st) = now st
                 /\ (loading st = false -> loading (timeout_handler st) = false)
                 /\ (isMounted st = true -> loading (timeout_handler st) = false)).
    { unfold timeout_handler, loading_at_mount.
      destruct (isMounted st) eqn:Hmo; simpl; repeat split; auto; discriminate. }
    destruct Hh as (Hm' & Ht' & Hn' & Hl' & Hf').
    rewrite Hm, Ht, Hn, Hm', Ht', Hn'. repeat split; auto.
Qed.

Lemma elapse_frame (ms : N) (st : State) :
  (loading st = false -> loading (elapse ms st) = false)
  /\ isMounted (elapse ms st) = isMounted st
  /\ now (elapse ms st) = now st + ms
  /\ (forall t, In t (timers (elapse ms st)) <->
                In t (timers st) /\ now st + ms < t)
  /\ (forall t, In t (timers st) -> t <= now st + ms ->
        isMounted st = true -> loading (elapse ms st) = false).
Proof.
  unfold elapse.
  match goal with
  | |- context [fold_left ?f ?due ?st0] =>
      destruct (timeouts_frame due st0) as (Hl & Hm & Ht & Hn & Hd);
      cbn zeta in Hl, Hm, Ht, Hn, Hd
  end.
  rewrite Hm, Ht, Hn. cbn -[N.leb N.add] in *.
  split; [ exact Hl | ].
  split; [ reflexivity | ].
  split; [ reflexivity | ].
  split.
  - intros t0. rewrite filter_In, negb_true_iff, N.leb_gt. tauto.
  - intros t0 Hin Hle Hmo. apply Hd; [ | exact Hmo ].
    intros Hnil.
    assert (Hin' : In t0 (filter (fun t1 => t1 <=? now st + ms) (timers st))).
    { apply filter_In. split; [ exact Hin | now apply N.leb_le ]. }
    rewrite Hnil in Hin'. exact Hin'.
Qed.

Lemma step_future (x : Step) (st : State) : future st -> future (step x st).
Proof.
  unfold future. intros Hf t Hin. destruct x as [ms | e]; simpl in *.
  - destruct (elapse_frame ms st) as (_ & _ & Hn & Ht & _).
    apply Ht in Hin. rewrite Hn. tauto.
  - destruct (occur_frame e st) as (_ & _ & Hn & _ & Ht).
    rewrite Hn. destruct (Ht t Hin) as [Hold | ->]; [ now apply Hf | lia ].
Qed.

Lemma step_armed (deadline : N) (x : Step) (st : State) :
  armed deadline st -> armed deadline (step x st).
Proof.
  unfold armed. intros [Hl | [Hm | (t & Hin & Hle)]];
    destruct x as [ms | e]; simpl.
  - left. now apply elapse_frame.
  - left. now apply occur_frame.
  - right; left. destruct (elapse_frame ms st) as (_ & -> & _). exact Hm.
  - right; left. now apply occur_frame.
  - destruct (elapse_frame ms st) as (_ & Hm & _ & Ht & Hd).
    destruct (isMounted st) eqn:Hmo; [ | right; left; now rewrite Hm ].
    destruct (N.le_gt_cases t (now st + ms)) as [Hdue | Hlater].
    + left. now apply (Hd t).
    + right; right. exists t. split; [ now apply Ht | exact Hle ].
  - right; right. exists t. split; [ now apply occur_frame | exact Hle ].
Qed.

Lemma step_now (x : Step) (st : State) :
  now (step x st) = now st + duration [x].
Proof.
  destruct x as [ms | e]; simpl.
  - destruct (elapse_frame ms st) as (_ & _ & -> & _). lia.
  - destruct (occur_frame e st) as (_ & _ & -> & _). lia.
Qed.

Lemma run_app (xs ys : list Step) (st : State) :
  run (xs ++ ys) st = run ys (run xs st).
Proof.
  revert st. induction xs as [ | x xs IH]; intros st; simpl; [ reflexivity | ].
  apply IH.
Qed.

Lemma run_invariants (deadline : N) (steps : list Step) (st : State) :
  (future st -> future (run steps st))
  /\ (armed deadline st -> armed deadline (run steps st))
  /\ now (run steps st) = now st + duration steps.
Proof.
  revert st. induction steps as [ | x steps IH]; intros st; simpl run.
  - simpl. repeat split; auto. lia.
  - destruct (IH (step x st)) as (Hf & Ha & Hn).
    repeat split.
    + intros H. now apply Hf, step_future.
    + intros H. now apply Ha, step_armed.
    + rewrite Hn, step_now. destruct x; simpl; lia.
Qed.

Lemma mount_future (sub : nat) : future (mount sub).
Proof. intros t []. Qed.

(** What the timeout does achieve.  It is armed when the initial
    [getSession] call has resolved, for 5 s after that moment.  From then
    on: if the provider is still mounted once those 5 s have passed,
    [loading] is false. *)
Theorem safety_timeout
    (sub : nat) (before after : list Step) (r : SessionResult) :
  sessionCheck (run before (mount sub)) = true ->
  5000 <= duration after ->
  let st := run (before ++ Occur (SessionSettled (Fulfilled r)) :: after)
                (mount sub) in
  isMounted st = true -> loading st = false.
Proof.
  intros Hpending Hlong st Hmounted. subst st.
  rewrite run_app in *.
  change (run (Occur (SessionSettled (Fulfilled r)) :: after)
              (run before (mount sub)))
    with (run after (step (Occur (SessionSettled (Fulfilled r)))
                          (run before (mount sub)))) in *.
  set (s0 := run before (mount sub)) in *.
  set (s1 := step (Occur (SessionSettled (Fulfilled r))) s0) in *.
  assert (Hf0 : future s0) by (apply (run_invariants 0), mount_future).
  assert (Hf1 : future s1) by now apply step_future.
  assert (Hn1 : now s1 = now s0).
  { unfold s1. rewrite step_now. simpl. lia. }
  assert (Ha1 : armed (now s0 + 5000) s1).
  { right; right. exists (now s0 + 5000). split; [ | lia ].
    unfold s1. simpl. rewrite Hpending.
    unfold initializeAuth_resume, handleAuthStateChange, handle_finally,
      clear_all, whenMounted.
    destruct s0 as [u s l a m sb sc f t n c]. cbn.
    destruct r as [[[[x | ]] | ] | err]; cbn; destruct m; cbn;
      apply in_or_app; right; now left. }
  destruct (run_invariants (now s0 + 5000) after s1) as (Hf & Ha & Hn).
  specialize (Hf Hf1). specialize (Ha Ha1).
  destruct Ha as [Hl | [Hm | (t & Hin & Hle)]].
  - exact Hl.
  - congruence.
  - apply Hf in Hin. lia.
Qed.

End ProviderTiming.

Lemma safety_timeout_witness :
  let before := [AuthProvider.Elapse 3000] in
  let after := [AuthProvider.Elapse 5000] in
  let r := SessionData (Some admin_session) in
  let st := AuthProvider.run
              (before ++ AuthProvider.Occur (AuthProvider.SessionSettled (Fulfilled r))
                 :: after) (AuthProvider.mount 0) in
  AuthProvider.sessionCheck (AuthProvider.run before (AuthProvider.mount 0)) = true
  /\ (5000 <= AuthProvider.duration after)%N
  /\ AuthProvider.isMounted st = true
  /\ AuthProvider.loading st = false.
Proof.
  split; [ reflexivity | ].
  split; [ vm_compute; discriminate | ].
  split; [ reflexivity | ].
  apply (safety_timeout 0 [AuthProvider.Elapse 3000] [AuthProvider.Elapse 5000]
           (SessionData (Some admin_session))).
  - reflexivity.
  - vm_compute; discriminate.
  - reflexivity.
Defined.

(** The 5 s do not run from the start of the session check: the check
    takes 3 s to answer and the profile is still being fetched 5 s after the
    check started.  [loading] is true at that moment, and the timeout is only
    due at 8 s. *)
Lemma loading_outlasts_five_seconds :
  let st := AuthProvider.run
              [ AuthProvider.Elapse 3000;
                AuthProvider.Occur
                  (AuthProvider.SessionSettled
                     (Fulfilled (SessionData (Some admin_session))));
                AuthProvider.Elapse 2000 ]
              (AuthProvider.mount 0) in
  AuthProvider.now st = 5000%N
  /\ AuthProvider.isMounted st = true
  /\ AuthProvider.loading st = true
  /\ AuthProvider.timers st = [8000%N].
Proof.
  repeat split.
Qed.

Section NoAnswer.
Import AuthProvider.
Local Open Scope N_scope.

(** With no timeout pending, time passing changes the clock only. *)
Lemma elapse_idle (ms : N) (st : State) :
  timers st = [] -> elapse ms st = setNow (now st + ms) st.
Proof.
  destruct st as [u s l a m sub sc f t n c]. simpl. intros ->. reflexivity.
Qed.

Lemma waiting_changes_nothing (waits : list N) (st : State) :
  timers st = [] ->
  run (map Elapse waits) st = setNow (now st + duration (map Elapse waits)) st.
Proof.
  revert st. induction waits as [ | ms waits IH]; intros st Ht; simpl.
  - destruct st; simpl. now rewrite N.add_0_r.
  - rewrite elapse_idle by exact Ht. rewrite IH by (destruct st; exact Ht).
    destruct st; simpl. now rewrite N.add_assoc.
Qed.

End NoAnswer.

(** C3 (where the code falls short of it).  The timeout is set by
    [initializeAuth] after [await supabase.auth.getSession()].  As long as
    that call has not settled, no timeout exists: however long the waits
    and however many, the provider is as it was at mount, only later.
    [loading] is still true, the session check is still pending, no
    [setTimeout] has been called and nothing is scheduled that could end
    the loading. *)
Theorem loading_forever_without_answer (sub : nat) (waits : list N) :
  let st := AuthProvider.run (map AuthProvider.Elapse waits)
              (AuthProvider.mount sub) in
  AuthProvider.loading st = true
  /\ AuthProvider.isMounted st = true
  /\ AuthProvider.sessionCheck st = true
  /\ AuthProvider.timers st = []
  /\ AuthProvider.calls st = AuthProvider.calls (AuthProvider.mount sub)
  /\ (forall ms, ~ In (AuthProvider.SetTimeout ms) (AuthProvider.calls st))
  /\ AuthProvider.now st
     = AuthProvider.duration (map AuthProvider.Elapse waits).
Proof.
  cbn zeta. rewrite waiting_changes_nothing by reflexivity.
  repeat split.
  intros ms H. simpl in H.
  repeat (destruct H as [H | H]; [ discriminate H | ]). exact H.
Qed.

(* ===================================================================== *)
(** ** C4: the provider's one subscription *)
(* ===================================================================== *)

Section ProviderSubscription.
Import AuthProvider.

Lemma issues_nothing (st st' : State) :
  calls st' = calls st -> subscription st' = subscription st ->
  issues st st' [].
Proof. intros Hc Hs. unfold issues. now rewrite app_nil_r. Qed.

Lemma occur_issues (e : Occurrence) (st : State) :
  exists new,
    issues st (occur e st) new
    /\ forallb quiet (filter (fun c => negb (is_unsubscribe c)) new) = true
    /\ filter is_unsubscribe new
       = match e with
         | Unmount => [Unsubscribe (subscription st)]
         | _ => []
         end.
Proof.
  unfold issues.
  paths e st;
    rewrite <- ?app_assoc; cbn;
    try (exists []; rewrite app_nil_r; now repeat split);
    eexists; (split; [ split; [ reflexivity | reflexivity ] | ]);
    now split.
Qed.

Lemma timeouts_issue_quiet (due : list N) (st : State) :
  exists new,
    issues st (fold_left (fun st _ => timeout_handler st) due st) new
    /\ forallb quiet new = true.
Proof.
  revert st. induction due as [ | t due IH]; intros st; simpl.
  - exists []. split; [ now apply issues_nothing | reflexivity ].
  - destruct (IH (timeout_handler st)) as (new & [Hc Hs] & Hq).
    unfold timeout_handler in *.
    destruct (isMounted st && loading_at_mount).
    + exists (Console Warn "Auth loading timed out, forcing completion" :: new).
      unfold issues. rewrite Hc, Hs. simpl. rewrite <- app_assoc.
      now rewrite Hq.
    + now exists new.
Qed.

Lemma elapse_issues_quiet (ms : N) (st : State) :
  exists new, issues st (elapse ms st) new /\ forallb quiet new = true.
Proof.
  unfold elapse.
  match goal with
  | |- context [fold_left ?f ?due ?st0] =>
      destruct (timeouts_issue_quiet due st0) as (new & [Hc Hs] & Hq)
  end.
  exists new. unfold issues. now rewrite Hc, Hs.
Qed.

Lemma quiet_not_unsubscribe (l : list Call) :
  forallb quiet l = true ->
  filter (fun c => negb (is_unsubscribe c)) l = l
  /\ filter is_unsubscribe l = [].
Proof.
  induction l as [ | c l IH]; simpl; [ now split | ].
  intros H. apply andb_prop in H. destruct H as [Hc Hl].
  destruct (IH Hl) as [-> ->].
  unfold quiet in Hc. destruct c; simpl in *; try discriminate; now split.
Qed.

Lemma quiet_filters (l : list Call) :
  forallb quiet (filter (fun c => negb (is_unsubscribe c)) l) = true ->
  filter is_auth_subscribe l = []
  /\ filter is_channel_subscribe l = []
  /\ filter is_getSession l = [].
Proof.
  induction l as [ | c l IH]; simpl; [ now repeat split | ].
  destruct c; simpl; intros H;
    try (apply andb_prop in H; destruct H as [Hc0 H]);
    try discriminate; now apply IH.
Qed.

Lemma step_issues (x : Step) (st : State) :
  exists new,
    issues st (step x st) new
    /\ forallb quiet (filter (fun c => negb (is_unsubscribe c)) new) = true
    /\ filter is_unsubscribe new
       = match x with
         | Occur Unmount => [Unsubscribe (subscription st)]
         | _ => []
         end.
Proof.
  destruct x as [ms | e]; simpl step.
  - destruct (elapse_issues_quiet ms st) as (new & Hi & Hq).
    exists new. split; [ exact Hi | ].
    destruct (quiet_not_unsubscribe new Hq) as [-> ->]. now split.
  - destruct (occur_issues e st) as (new & Hi & Hq & Hu).
    exists new. rewrite Hu. repeat split; try apply Hi; exact Hq.
Qed.

Lemma run_issues (steps : list Step) (st : State) :
  exists new,
    issues st (run steps st) new
    /\ forallb quiet (filter (fun c => negb (is_unsubscribe c)) new) = true
    /\ filter is_unsubscribe new
       = repeat (Unsubscribe (subscription st)) (unmounts steps).
Proof.
  revert st. induction steps as [ | x steps IH]; intros st.
  - exists []. split; [ now apply issues_nothing | now split ].
  - simpl run. destruct (IH (step x st)) as (new2 & [Hc2 Hs2] & Hq2 & Hu2).
    destruct (step_issues x st) as (new1 & [Hc1 Hs1] & Hq1 & Hu1).
    exists (new1 ++ new2). unfold issues.
    rewrite Hc2, Hc1, Hs2, Hs1, <- app_assoc, !filter_app, forallb_app, Hq1, Hq2,
      Hu1, Hu2, Hs1.
    repeat split.
    destruct x as [ms | [ | | | ]]; reflexivity.
Qed.

(** C4.  Per mount, the provider's calls begin with the registration of
    the auth-state-change subscription, then the session check; whatever
    happens afterwards it never registers a second auth subscription, never
    subscribes to a realtime channel and never checks the session again;
    and every run of its cleanup unsubscribes that same subscription, once. *)
Theorem provider_single_subscription (sub : nat) (steps : list Step) :
  let tr := calls (run steps (mount sub)) in
  (exists rest, tr = OnAuthStateChange sub :: GetSession :: rest)
  /\ filter is_auth_subscribe tr = [OnAuthStateChange sub]
  /\ filter is_channel_subscribe tr = []
  /\ filter is_getSession tr = [GetSession]
  /\ filter is_unsubscribe tr = repeat (Unsubscribe sub) (unmounts steps).
Proof.
  destruct (run_issues steps (mount sub)) as (new & [Hc _] & Hq & Hu).
  cbn zeta. rewrite Hc.
  destruct (quiet_filters new Hq) as (Ha & Hch & Hg).
  cbn. rewrite Ha, Hch, Hg. cbn in Hu. rewrite Hu.
  repeat split. now eexists.
Qed.

End ProviderSubscription.

Example one_mount_one_unmount :
  AuthProvider.calls
    (AuthProvider.run
       [ AuthProvider.Occur (AuthProvider.SessionSettled (Fulfilled (SessionData None)));
         AuthProvider.Elapse 6000;
         AuthProvider.Occur AuthProvider.Unmount ]
       (AuthProvider.mount 7))
  = [ AuthProvider.OnAuthStateChange 7;
      AuthProvider.GetSession;
      AuthProvider.AddEventListener "beforeunload";
      AuthProvider.Console Info "Initial session check";
      AuthProvider.SetTimeout 5000;
      AuthProvider.Console Warn "Auth loading timed out, forcing completion";
      AuthProvider.Unsubscribe 7;
      AuthProvider.RemoveEventListener "beforeunload" ].
Proof. reflexivity. Qed.

(* ===================================================================== *)
(** ** C5: the branches of createPost *)
(* ===================================================================== *)

Section CreatePost.
Import ApiService Follows Wrappers.
Context {S : Type} (b : Backend S).



End CreatePost.

Example createPost_upload_refused :
  run storage_down_backend (ApiService.createPost "hello" (Some photo)) tt
  = (Returned JNull,
     [ EvGetSession (Fulfilled (SessionData (Some {| session_user := Some alice |})));
       EvNow 1700000000000%N;
       EvUpload "posts" "posts/alice/1700000000000_cat.png" photo "3600" true
                (Fulfilled (UploadErr {| storage_message := "quota" |}));
       EvLog Error "Error uploading post image:" ],
     tt).
Proof. reflexivity. Qed.

Example createPost_all_fine :
  outcome signed_in_backend (ApiService.createPost "hello" (Some photo)) tt
  = Returned alice_row.
Proof. reflexivity. Qed.

(* ===================================================================== *)
(** ** C6: the profile of a new user *)
(* ===================================================================== *)

Section NewUser.
Import Migration.

Lemma split_head (c : ascii) (s : string) :
  exists rest, split c s = before c s :: rest.
Proof.
  induction s as [ | a s IH]; simpl.
  - now exists [].
  - destruct (Ascii.eqb a c).
    + now eexists.
    + destruct IH as (rest & ->). now exists rest.
Qed.

Lemma split_part_first (s : string) :
  split_part (Some s) "@" 1 = Some (before "@" s).
Proof.
  unfold split_part. destruct (split_head "@" s) as (rest & ->). reflexivity.
Qed.

(** C6.  The insert of a row into [auth.users] adds one row to [profiles],
    with the new user's id; its username is the metadata [username] when
    that is there (not NULL), else the part of the email before [@]; its
    display name is the metadata [display_name], else the metadata
    [username], else that part of the email.  So the row of a sign-up with
    username [u] gets a profile with username [u] and display name [u]. *)
Theorem new_user_profile :
  (forall (new : auth_user) (db : Database),
      exists p,
        profiles (insert_auth_user new db) = profiles db ++ [p]
        /\ profile_id p = id new
        /\ username p
           = match get_text (raw_user_meta_data new) "username" with
             | Some u => Some u
             | None => option_map (before "@") (email new)
             end
        /\ display_name p
           = match get_text (raw_user_meta_data new) "display_name" with
             | Some d => Some d
             | None =>
                 match get_text (raw_user_meta_data new) "username" with
                 | Some u => Some u
                 | None => option_map (before "@") (email new)
                 end
             end)
  /\ (forall (uid email password u redirectUrl : string) (db : Database),
        let new := signed_up_user uid (signUp_request email password u redirectUrl) in
        exists p,
          profiles (insert_auth_user new db) = profiles db ++ [p]
          /\ profile_id p = uid
          /\ username p = Some u /\ display_name p = Some u).
Proof.
  split.
  - intros new db. exists (new_profile new).
    split; [ reflexivity | ]. split; [ reflexivity | ].
    unfold new_profile. cbn [username display_name coalesce].
    destruct (get_text (raw_user_meta_data new) "username") as [u | ],
      (get_text (raw_user_meta_data new) "display_name") as [d | ];
      cbn [coalesce];
      destruct (email new) as [e | ]; cbn [option_map];
      rewrite ?split_part_first; now split.
  - intros uid email password u redirectUrl db new.
    exists (new_profile new). now repeat split.
Qed.

End NewUser.

Example profile_from_email_only :
  Migration.new_profile
    {| Migration.id := "7"; Migration.email := Some "carol@example.org";
       Migration.raw_user_meta_data := Some [] |}
  = {| Migration.profile_id := "7"; Migration.username := Some "carol";
       Migration.display_name := Some "carol"; Migration.avatar_url := None |}.
Proof. reflexivity. Qed.

Example profile_with_display_name_only :
  Migration.new_profile
    {| Migration.id := "8"; Migration.email := Some "dave@example.org";
       Migration.raw_user_meta_data :=
         Some [("display_name", Migration.JsonString "Dave D.")] |}
  = {| Migration.profile_id := "8"; Migration.username := Some "dave";
       Migration.display_name := Some "Dave D."; Migration.avatar_url := None |}.
Proof. reflexivity. Qed.

(* ===================================================================== *)
(** ** C7: the fields of a Profile *)
(* ===================================================================== *)

Section ProfileFields.
Import ApiService Follows Wrappers.

(** C7 (as the code has it).  The profile fields the application names
    are those of the specification and two more, [location] and [verified]:
    an update payload of [updateProfile] carries only username, display_name,
    bio, location and avatar_url; the projection joined into posts is id,
    username, display_name, verified, avatar_url; the admin check reads
    is_admin. *)
Theorem profile_fields_used :
  (forall record k, In k (keys (finalUpdates record)) -> In k updatable_fields)
  /\ embedded "profiles" getPosts_columns
     = ["id"; "username"; "display_name"; "verified"; "avatar_url"]
  /\ (forall uid, selected (AuthProvider.fetchUserProfile_query uid) = ["is_admin"])
  /\ (forall k, In k profile_fields_in_code <->
                In k (spec_Profile_fields ++ ["location"; "verified"])).
Proof.
  split; [ exact finalUpdates_keys | ].
  split; [ reflexivity | ].
  split; [ reflexivity | ].
  intros k. cbn. tauto.
Qed.

End ProfileFields.

(** C7 as stated fails twice: the projection joined into posts reads
    [verified], and [updateProfile] sends [location]; the specification's
    Profile has neither. *)
Lemma profile_fields_beyond_spec :
  (In "verified" (embedded "profiles" ApiService.getPosts_columns)
   /\ ~ In "verified" spec_Profile_fields)
  /\ (Wrappers.updates_sent
        (trace signed_in_backend
           (ApiService.updateProfile (JObj [("location", JStr "Paris")])) tt)
      = [("profiles", JObj [("location", JStr "Paris")], [("id", JStr "alice")])]
      /\ ~ In "location" spec_Profile_fields).
Proof.
  split; split.
  - cbn. tauto.
  - cbn. intros H. repeat (destruct H as [H | H]; [ discriminate | ]). exact H.
  - reflexivity.
  - cbn. intros H. repeat (destruct H as [H | H]; [ discriminate | ]). exact H.
Qed.

(* ===================================================================== *)
(** ** C8: updateProfile with nothing to update *)
(* ===================================================================== *)

Section UpdateProfileEmpty.
Import ApiService Follows Wrappers.
Context {S : Type} (b : Backend S).


End UpdateProfileEmpty.


(* ===================================================================== *)
(** ** C9: isAdmin and the session *)
(* ===================================================================== *)

Section ProviderAdmin.
Import AuthProvider.

(** A handled change to no session turns [isAdmin] off. *)
Lemma null_session_clears_isAdmin (event : string) (st : State) :
  isMounted st = true ->
  let st' := occur (AuthStateChange event None) st in
  session st' = None /\ user st' = None /\ isAdmin st' = false
  /\ loading st' = false.
Proof.
  intros Hm. destruct st as [u s l a m sub sc f t n c]. simpl in Hm. subst m.
  now cbn.
Qed.

(** An initial check that finds no session, or fails, turns it off too. *)
Lemma no_initial_session_clears_isAdmin (r : Settled SessionResult) (st : State) :
  isMounted st = true -> sessionCheck st = true ->
  match r with
  | Fulfilled res => data_session res = None
  | Rejected _ => True
  end ->
  let st' := occur (SessionSettled r) st in
  session st' = None /\ isAdmin st' = false /\ loading st' = false.
Proof.
  intros Hm Hs Hr. destruct st as [u s l a m sub sc f t n c].
  simpl in Hm, Hs. subst m sc.
  destruct r as [[[s0 | ] | err] | v]; simpl in Hr; try discriminate;
    unfold occur, initializeAuth_resume, clear_all, whenMounted;
    repeat split.
Qed.

(** A profile fetch that fails or throws turns it off. *)
Lemma failed_fetch_clears_isAdmin
    (i : nat) (r : Settled PgResponse) (st : State) (uid : string) :
  isMounted st = true -> nth_error (fetches st) i = Some uid ->
  match r with
  | Fulfilled (PgOk _ _) => False
  | _ => True
  end ->
  isAdmin (occur (ProfileSettled i r) st) = false.
Proof.
  intros Hm Hi Hr. destruct st as [u s l a m sub sc f t n c].
  simpl in Hm, Hi. subst m. cbn. rewrite Hi.
  destruct r as [[data cnt | err] | v]; [ contradiction | reflexivity .. ].
Qed.

(** [isAdmin] goes from false to true at one kind of step only: a waiting
    profile fetch is answered with a row whose [is_admin] is true. *)
Lemma isAdmin_rises_on_admin_row (x : Step) (st : State) :
  isAdmin st = false -> isAdmin (step x st) = true ->
  exists i uid data cnt,
    x = Occur (ProfileSettled i (Fulfilled (PgOk data cnt)))
    /\ nth_error (fetches st) i = Some uid
    /\ is_admin_flag data = true
    /\ isMounted st = true.
Proof.
  destruct x as [ms | e]; simpl step.
  - intros H0 H1. exfalso.
    unfold elapse in H1.
    match type of H1 with
    | context [fold_left ?f ?due ?st0] =>
        assert (Hk : forall d s0, isAdmin (fold_left f d s0) = isAdmin s0)
    end.
    { induction d as [ | t d IH]; intros s0; simpl; [ reflexivity | ].
      rewrite IH. unfold timeout_handler.
      now destruct (isMounted s0 && loading_at_mount). }
    rewrite Hk in H1. simpl in H1. congruence.
  - paths e st; intros H0 H1; try congruence.
    exists i, s0, data, cnt. now repeat split.
Qed.

Lemma timeouts_keep_session (due : list N) (st : State) :
  let st' := fold_left (fun st _ => timeout_handler st) due st in
  isAdmin st' = isAdmin st /\ session st' = session st
  /\ fetches st' = fetches st.
Proof.
  revert st. induction due as [ | t due IH]; intros st; simpl.
  - now repeat split.
  - destruct (IH (timeout_handler st)) as (-> & -> & ->).
    unfold timeout_handler.
    now destruct (isMounted st && loading_at_mount).
Qed.

Lemma step_admin_has_session (x : Step) (st : State) :
  orderly [x] st = true -> admin_has_session st ->
  admin_has_session (step x st).
Proof.
  unfold admin_has_session.
  destruct x as [ms | e]; simpl step.
  - intros _ Hinv. unfold elapse.
    match goal with
    | |- context [fold_left ?f ?due ?st0] =>
        destruct (timeouts_keep_session due st0) as (-> & -> & ->)
    end.
    exact Hinv.
  - simpl orderly. rewrite andb_true_r.
    paths e st; intros Ho [Ha Hf]; split; intros H;
      try discriminate; try (now apply Ha); try (now apply Hf);
      try (apply Hf; intros ->; now destruct i);
      try (exfalso; now apply H).
Qed.

(** What does hold: on a run in which no handler starts while another
    waits for its fetch, [isAdmin] is true only with a session. *)
Lemma isAdmin_needs_session_when_orderly (sub : nat) (steps : list Step) :
  orderly steps (mount sub) = true ->
  isAdmin (run steps (mount sub)) = true ->
  session (run steps (mount sub)) <> None.
Proof.
  assert (Hgen : forall st, orderly steps st = true ->
                   admin_has_session st -> admin_has_session (run steps st)).
  { induction steps as [ | x rest IH]; intros st Ho Hinv; [ exact Hinv | ].
    simpl in Ho. apply andb_prop in Ho. destruct Ho as [Hx Hrest].
    simpl run. apply IH; [ exact Hrest | ].
    apply step_admin_has_session; [ | exact Hinv ].
    simpl. now rewrite Hx. }
  intros Ho. apply Hgen; [ exact Ho | ].
  split; cbn; [ discriminate | intros H; now contradiction H ].
Qed.

End ProviderAdmin.

(** C9, the run on which it fails: the provider is mounted, holds no
    session and no user, and reports [isAdmin = true]. *)
Theorem isAdmin_without_session :
  let st := AuthProvider.run late_admin_answer (AuthProvider.mount 0) in
  AuthProvider.isMounted st = true
  /\ AuthProvider.session st = None
  /\ AuthProvider.user st = None
  /\ AuthProvider.isAdmin st = true.
Proof.
  repeat split.
Qed.

Example late_admin_answer_overlaps :
  orderly late_admin_answer (AuthProvider.mount 0) = false.
Proof. reflexivity. Qed.

Example admin_signs_in :
  let st := AuthProvider.run
              [ AuthProvider.Occur
                  (AuthProvider.SessionSettled
                     (Fulfilled (SessionData (Some admin_session))));
                AuthProvider.Elapse 120;
                AuthProvider.Occur
                  (AuthProvider.ProfileSettled 0
                     (Fulfilled (PgOk (JObj [("is_admin", JBool true)]) None))) ]
              (AuthProvider.mount 0) in
  AuthProvider.user st = Some alice
  /\ AuthProvider.session st = Some admin_session
  /\ AuthProvider.isAdmin st = true
  /\ AuthProvider.loading st = false.
Proof.
  repeat split.
Qed.

(** The same three occurrences with the fetch answered before the
    sign-out leave [isAdmin] false. *)
Example isAdmin_in_order :
  let st := AuthProvider.run
              [ AuthProvider.Occur
                  (AuthProvider.SessionSettled
                     (Fulfilled (SessionData (Some admin_session))));
                AuthProvider.Occur
                  (AuthProvider.ProfileSettled 0
                     (Fulfilled (PgOk (JObj [("is_admin", JBool true)]) None)));
                AuthProvider.Occur (AuthProvider.AuthStateChange "SIGNED_OUT" None) ]
              (AuthProvider.mount 0) in
  AuthProvider.session st = None /\ AuthProvider.isAdmin st = false.
Proof.
  repeat split.
Qed.

(* ===================================================================== *)
(** ** C10: isFollowing *)
(* ===================================================================== *)

Section IsFollowing.
Import ApiService Follows Wrappers.
Context {S : Type} (b : Backend S).


End IsFollowing.

Example isFollowing_row :
  outcome signed_in_backend (Follows.isFollowing "bob") tt
  = Returned (JBool true).
Proof. reflexivity. Qed.

Example isFollowing_no_rows :
  outcome no_rows_backend (Follows.isFollowing "bob") tt
  = Returned (JBool false).
Proof. reflexivity. Qed.

Example isFollowing_denied :
  run denied_backend (Follows.isFollowing "bob") tt
  = (Threw (ErrorObject "new row violates row-level security policy"),
     [ EvQuery (Follows.isFollowing_query "bob") (Fulfilled (PgErr denied));
       EvLog Error "Error checking follow status:" ],
     tt).
Proof. reflexivity. Qed.

(* ===================================================================== *)
(** * Further code, and what it guarantees *)
(* ===================================================================== *)

(* ===================================================================== *)
(** ** The logger, the toast it calls, and the error boundary *)
(* ===================================================================== *)

Module Logger.

(** [LogOptions.toastVariant] *)
Inductive Variant := VDefault | VDestructive.

(** [LogOptions]; [errorInfo] is never read by the logger and is left
    out. *)
Record LogOptions := {
  userMessage : option string;
  showToast : option bool;
  toastVariant : option Variant
}.

Record LogEntry := {
  timestamp : string;
  level : LogLevel;
  message : string;
  details : JsVal
}.

(** The props of [toast] in [use-toast]. *)
Inductive ToastVariant := TDefault | TDestructive | TSuccess.

Record Toast := {
  title : string;
  description : option string;
  variant : option ToastVariant
}.

Inductive ConsoleMethod :=
| ConsoleInfo | ConsoleWarn | ConsoleError | ConsoleDebug | ConsoleLog.

(** What a call of the logger does, in order. *)
Inductive Output :=
| Console (method : ConsoleMethod) (entry : LogEntry)
| ShowToast (t : Toast).

(** [options?.userMessage], as a condition: undefined and the empty string
    are falsy. *)
Definition message_of (options : option LogOptions) : option string :=
  match options with
  | Some o =>
      match userMessage o with
      | Some m => if String.eqb m EmptyString then None else Some m
      | None => None
      end
  | None => None
  end.

(** [options?.showToast ?? (level === 'error' || level === 'warn')] *)
Definition showToast_of (lv : LogLevel) (options : option LogOptions) : bool :=
  match options with
  | Some {| showToast := Some b |} => b
  | _ => match lv with Error | Warn => true | _ => false end
  end.

(** [options.toastVariant || 'default'] *)
Definition variant_of (o : option LogOptions) : ToastVariant :=
  match o with
  | Some {| toastVariant := Some VDestructive |} => TDestructive
  | _ => TDefault
  end.

Definition console_of (lv : LogLevel) : ConsoleMethod :=
  match lv with
  | Info => ConsoleInfo
  | Warn => ConsoleWarn
  | Error => ConsoleError
  | Debug => ConsoleDebug
  end.

(** [logger.log]; [now] is [new Date().toISOString()]. *)
Definition log (now : string) (lv : LogLevel) (msg : string) (det : JsVal)
    (options : option LogOptions) : list Output :=
  Console (console_of lv)
    {| timestamp := now; level := lv; message := msg; details := det |}
  :: match showToast_of lv options, message_of options with
     | true, Some m =>
         [ ShowToast
             {| title := match lv with Error => "Error" | _ => "Notification" end;
                description := Some m;
                variant := Some (variant_of options) |} ]
     | _, _ => []
     end.

(** [{ ...options, toastVariant: v }] *)
Definition with_toastVariant (options : option LogOptions) (v : Variant)
  : LogOptions :=
  match options with
  | Some o => {| userMessage := userMessage o; showToast := showToast o;
                 toastVariant := Some v |}
  | None => {| userMessage := None; showToast := None; toastVariant := Some v |}
  end.

(** [{ ...options, showToast: b }] *)
Definition with_showToast (options : option LogOptions) (b : bool)
  : LogOptions :=
  match options with
  | Some o => {| userMessage := userMessage o; showToast := Some b;
                 toastVariant := toastVariant o |}
  | None => {| userMessage := None; showToast := Some b; toastVariant := None |}
  end.

Definition info (now msg : string) (det : JsVal) (options : option LogOptions) :=
  log now Info msg det options.
Definition warn (now msg : string) (det : JsVal) (options : option LogOptions) :=
  log now Warn msg det (Some (with_toastVariant options VDestructive)).
Definition error (now msg : string) (det : JsVal) (options : option LogOptions) :=
  log now Error msg det (Some (with_toastVariant options VDestructive)).
Definition debug (now msg : string) (det : JsVal) (options : option LogOptions) :=
  log now Debug msg det (Some (with_showToast options false)).

(** The four entry points by level. *)
Definition call (lv : LogLevel) :=
  match lv with
  | Info => info
  | Warn => warn
  | Error => error
  | Debug => debug
  end.

Definition toasts (out : list Output) : list Toast :=
  flat_map (fun o => match o with ShowToast t => [t] | Console _ _ => [] end) out.

Definition consoles (out : list Output) : list (ConsoleMethod * LogEntry) :=
  flat_map (fun o => match o with Console m e => [(m, e)] | ShowToast _ => [] end) out.

(** [s.toUpperCase()] on ASCII letters. *)
Definition upper (a : ascii) : ascii :=
  let n := nat_of_ascii a in
  if Nat.leb 97 n && Nat.leb n 122 then ascii_of_nat (n - 32) else a.

Fixpoint toUpperCase (s : string) : string :=
  match s with
  | EmptyString => EmptyString
  | String a rest => String (upper a) (toUpperCase rest)
  end.

Definition variant_text (v : ToastVariant) : string :=
  match v with
  | TDefault => "default"
  | TDestructive => "destructive"
  | TSuccess => "success"
  end.

(** The line the placeholder [toast] writes with [console.log]. *)
Definition toast_line (t : Toast) : string :=
  ("[TOAST - "
   ++ match variant t with
      | Some v => toUpperCase (variant_text v)
      | None => "DEFAULT"
      end
   ++ "] Title: " ++ title t ++ ", Description: "
   ++ match description t with Some d => d | None => EmptyString end)%string.

End Logger.

Module ErrorBoundary.

Record State := { hasError : bool }.

(** [public state = { hasError: false }] *)
Definition initial : State := {| hasError := false |}.

Definition getDerivedStateFromError (error : JsVal) : State :=
  {| hasError := true |}.

(** [componentDidCatch]: the options are [errorInfo] (a component stack)
    spread, with [userMessage] added. *)
Definition componentDidCatch (now : string) (error : JsVal)
  : list Logger.Output :=
  Logger.error now "Uncaught error in ErrorBoundary" error
    (Some {| Logger.userMessage := Some "An unexpected error occurred.";
             Logger.showToast := None; Logger.toastVariant := None |}).

Inductive View :=
| Children
| Fallback (node : string)          (* this.props.fallback *)
| DefaultScreen.                    (* "Oops! Something went wrong." *)

(** [render]; [fallback] is [None] when the prop is missing or falsy. *)
Definition render (fallback : option string) (st : State) : View :=
  if hasError st then
    match fallback with Some node => Fallback node | None => DefaultScreen end
  else Children.

(** What happens to a mounted boundary: a descendant throws while
    rendering, or the boundary is rendered again. *)
Inductive Event :=
| ChildThrew (now : string) (error : JsVal)
| Rerender.

Definition on_event (e : Event) (st : State) : State * list Logger.Output :=
  match e with
  | ChildThrew now error =>
      (getDerivedStateFromError error, componentDidCatch now error)
  | Rerender => (st, [])
  end.

Fixpoint run (events : list Event) (st : State) : State * list Logger.Output :=
  match events with
  | [] => (st, [])
  | e :: rest =>
      let (st1, out1) := on_event e st in
      let (st2, out2) := run rest st1 in
      (st2, out1 ++ out2)
  end.

Fixpoint throws (events : list Event) : nat :=
  match events with
  | [] => 0
  | ChildThrew _ _ :: rest => S (throws rest)
  | Rerender :: rest => throws rest
  end.

End ErrorBoundary.

Section LoggerFacts.
Import Logger.

(** X1.  [logger.debug] never shows a toast, whatever options it is given,
    and no entry point shows one when it is called without options, not
    even [logger.error]: an object passed in the [details] position, as in
    [logger.error(message, { userMessage })], is only logged. *)
Theorem logger_silent_cases (now msg : string) (det : JsVal) :
  (forall options, toasts (debug now msg det options) = [])
  /\ (forall lv, toasts (call lv now msg det None) = []).
Proof.
  split.
  - intros [[um [[ | ] | ] tv] | ]; unfold debug, log; cbn;
      try reflexivity.
  - intros []; reflexivity.
Qed.

(** X2.  [logger.error] and [logger.warn] called with a non-empty
    [userMessage] show exactly one toast unless [showToast] is explicitly
    false; the toast carries that message and is always 'destructive',
    whatever variant the caller asked for; its title is 'Error' for
    [error] and 'Notification' for [warn].  [logger.info] shows one only
    when [showToast] is explicitly true, with the caller's variant. *)
Theorem logger_toast_rule
    (now msg : string) (det : JsVal) (o : LogOptions) (m : string) :
  userMessage o = Some m -> m <> EmptyString ->
  toasts (error now msg det (Some o))
  = (if match showToast o with Some false => false | _ => true end
     then [ {| title := "Error"; description := Some m;
               variant := Some TDestructive |} ]
     else [])
  /\ toasts (warn now msg det (Some o))
     = (if match showToast o with Some false => false | _ => true end
        then [ {| title := "Notification"; description := Some m;
                  variant := Some TDestructive |} ]
        else [])
  /\ toasts (info now msg det (Some o))
     = (if match showToast o with Some true => true | _ => false end
        then [ {| title := "Notification"; description := Some m;
                  variant := Some (variant_of (Some o)) |} ]
        else []).
Proof.
  intros Hm Hne. apply String.eqb_neq in Hne.
  destruct o as [um [[ | ] | ] tv]; cbn in Hm; subst um;
    unfold error, warn, info, log, toasts, message_of;
    cbn -[String.eqb]; rewrite ?Hne; cbn; repeat split.
Qed.

Lemma log_shape (now : string) (lv : LogLevel) (msg : string) (det : JsVal)
    (options : option LogOptions) :
  let entry := {| timestamp := now; level := lv; message := msg; details := det |} in
  log now lv msg det options
  = Console (console_of lv) entry
    :: map ShowToast (toasts (log now lv msg det options))
  /\ (List.length (toasts (log now lv msg det options)) <= 1)%nat.
Proof.
  unfold log.
  destruct (showToast_of lv options); [ destruct (message_of options) | ];
    cbn; split; (reflexivity || lia).
Qed.

(** X3.  Every call of the logger writes exactly one console entry, with
    the method of its level and the message and details it was given, then
    at most one toast; through the placeholder [toast], an error with the
    user message [m] prints the line
    [[TOAST - DESTRUCTIVE] Title: Error, Description: m]. *)
Theorem logger_outputs
    (lv : LogLevel) (now msg : string) (det : JsVal)
    (options : option LogOptions) :
  call lv now msg det options
  = Console (console_of lv)
      {| timestamp := now; level := lv; message := msg; details := det |}
    :: map ShowToast (toasts (call lv now msg det options))
  /\ (List.length (toasts (call lv now msg det options)) <= 1)%nat
  /\ (forall t, In t (toasts (error now msg det options)) ->
        exists m, description t = Some m
          /\ toast_line t
             = ("[TOAST - DESTRUCTIVE] Title: Error, Description: " ++ m)%string).
Proof.
  split; [ | split ].
  - destruct lv; unfold call, info, warn, error, debug; apply log_shape.
  - destruct lv; unfold call, info, warn, error, debug; apply log_shape.
  - unfold error, log. intros t.
    destruct (showToast_of Error (Some (with_toastVariant options VDestructive)));
      [ destruct (message_of (Some (with_toastVariant options VDestructive)))
          as [m | ] | ]; cbn; try contradiction.
    intros [<- | []]. exists m. split; [ reflexivity | ].
    unfold toast_line. cbn. now destruct options.
Qed.

End LoggerFacts.

Lemma logger_toast_rule_witness :
  let o := {| Logger.userMessage := Some "Failed to load profile.";
              Logger.showToast := Some true;
              Logger.toastVariant := Some Logger.VDefault |} in
  Logger.userMessage o = Some "Failed to load profile."
  /\ "Failed to load profile." <> EmptyString
  /\ Logger.toasts (Logger.error "t0" "Error fetching profile:" JNull (Some o))
     = [ {| Logger.title := "Error";
            Logger.description := Some "Failed to load profile.";
            Logger.variant := Some Logger.TDestructive |} ].
Proof.
  split; [ reflexivity | ].
  split; [ discriminate | ].
  apply (logger_toast_rule "t0" "Error fetching profile:" JNull
           {| Logger.userMessage := Some "Failed to load profile.";
              Logger.showToast := Some true;
              Logger.toastVariant := Some Logger.VDefault |}
           "Failed to load profile.");
    [ reflexivity | discriminate ].
Defined.

Section ErrorBoundaryFacts.
Import ErrorBoundary.

Lemma run_hasError (events : list Event) (st : State) :
  hasError (fst (run events st))
  = hasError st || negb (Nat.eqb (throws events) 0).
Proof.
  revert st. induction events as [ | e rest IH]; intros st; simpl.
  - now rewrite orb_false_r.
  - destruct e as [now error | ]; simpl.
    + specialize (IH (getDerivedStateFromError error)).
      destruct (run rest (getDerivedStateFromError error)) as [st2 out2].
      simpl in *. rewrite IH. simpl. now rewrite orb_true_r.
    + specialize (IH st). destruct (run rest st) as [st2 out2].
      simpl in *. exact IH.
Qed.

Lemma run_toasts (events : list Event) (st : State) :
  Logger.toasts (snd (run events st))
  = repeat {| Logger.title := "Error";
              Logger.description := Some "An unexpected error occurred.";
              Logger.variant := Some Logger.TDestructive |}
           (throws events).
Proof.
  revert st. induction events as [ | e rest IH]; intros st; simpl.
  - reflexivity.
  - destruct e as [now error | ]; simpl.
    + specialize (IH (getDerivedStateFromError error)).
      destruct (run rest (getDerivedStateFromError error)) as [st2 out2].
      simpl in *. now rewrite IH.
    + specialize (IH st). destruct (run rest st) as [st2 out2].
      simpl in *. exact IH.
Qed.

(** X4.  The error boundary never recovers: it renders its children
    exactly as long as no descendant has thrown, and from the first throw
    on it renders the fallback (the [fallback] prop, or the default screen)
    whatever happens next; each throw it catches shows one destructive
    toast "An unexpected error occurred.". *)
Theorem error_boundary_latches (fallback : option string) (events : list Event) :
  let st := fst (run events initial) in
  (render fallback st = Children <-> throws events = 0)
  /\ (throws events <> 0 ->
        render fallback st
        = match fallback with
          | Some node => Fallback node
          | None => DefaultScreen
          end)
  /\ Logger.toasts (snd (run events initial))
     = repeat {| Logger.title := "Error";
                 Logger.description := Some "An unexpected error occurred.";
                 Logger.variant := Some Logger.TDestructive |}
              (throws events).
Proof.
  cbn zeta. unfold render. rewrite run_hasError, run_toasts. simpl.
  destruct (Nat.eqb_spec (throws events) 0) as [-> | Hne]; simpl.
  - repeat split; auto. intros H. now contradiction H.
  - repeat split.
    + destruct fallback; discriminate.
    + intros H. contradiction.
Qed.

End ErrorBoundaryFacts.

(* ===================================================================== *)
(** ** More about the wrappers of [ApiService] *)
(* ===================================================================== *)

Section ApiServiceFacts.
Import ApiService Follows Wrappers.

(** The wrappers of [ApiService] that start with the session guard. *)
Definition needs_session (op : Op) : bool :=
  match op with
  | FetchOwnProfile | UpdateProfile _ | UploadAvatar _ | CreatePost _ _ => true
  | _ => false
  end.

(** [getSession] answers, and the answer carries no usable user id: no
    session, an error, a session without user, or an empty id. *)
Definition signed_out {S : Type} (b : Backend S) (s : S) : bool :=
  match fst (respond b AuthGetSession s) with
  | Fulfilled r =>
      match authenticated (user_id_of (data_session r)) with
      | None => true
      | Some _ => false
      end
  | Rejected _ => false
  end.

(** Each request of the trace is made for the user of the latest session
    lookup before it: a query is filtered on that user's [id] or inserts a
    row with that [user_id], an upload goes below that user's folder. *)
Fixpoint owned (uid : option string) (tr : list Event) : Prop :=
  match tr with
  | [] => True
  | EvGetSession (Fulfilled r) :: rest =>
      owned (user_id_of (data_session r)) rest
  | EvGetSession (Rejected _) :: rest => owned None rest
  | EvQuery q _ :: rest =>
      (exists u, uid = Some u
         /\ (q_eq q = [("id", JStr u)]
             \/ exists row, q_verb q = Insert row
                  /\ get row "user_id" = JStr u))
      /\ owned uid rest
  | EvUpload bucket path file _ _ _ :: rest =>
      (exists u now, uid = Some u /\ path = filePath bucket u now file)
      /\ owned uid rest
  | _ :: rest => owned uid rest
  end.

Context {S : Type} (b : Backend S).

(** X5.  Without a usable session the four guarded wrappers
    (fetchOwnProfile, updateProfile, uploadAvatar, createPost) return null
    after the session lookup and one error log: no query, no upload, not
    even the clock is read. *)
Theorem signed_out_wrappers_do_nothing (op : Op) (s : S) :
  needs_session op = true -> signed_out b s = true ->
  outcome b (exec op) s = Returned JNull
  /\ exists msg,
       trace b (exec op) s
       = [EvGetSession (fst (respond b AuthGetSession s)); EvLog Error msg].
Proof.
  unfold signed_out, outcome, trace.
  destruct op; try discriminate; intros _;
    unfold exec, fetchOwnProfile, updateProfile, uploadAvatar, createPost,
      getUserId;
    cbn -[authenticated];
    destruct (respond b AuthGetSession s) as [[r | v] s1];
    cbn -[authenticated]; try discriminate;
    destruct (authenticated (user_id_of (data_session r)));
    try discriminate; intros _; cbn;
    match goal with
    | |- context [respond b (Log Error ?m) s1] =>
        destruct (respond b (Log Error m) s1) as [[] s2]; cbn;
        split; [ reflexivity | now exists m ]
    end.
Qed.

Ltac in_cases :=
  repeat match goal with
         | H : False |- _ => contradiction
         | H : _ \/ _ |- _ => destruct H
         | H : In _ _ |- _ => simpl in H
         | H : (_, _, _) = (_, _, _) |- _ => injection H as <- <- <-
         | H : EvQuery _ _ = EvQuery _ _ |- _ => injection H as <- <-
         | H : EvQuery _ _ = _ |- _ => discriminate H
         | H : _ = EvQuery _ _ |- _ => discriminate H
         end.

(** X6.  The guarded wrappers only ever act for the signed-in user: every
    query they send is filtered on, or inserts under, the id of the latest
    session lookup, and every upload goes below that user's folder.  No
    caller-supplied id reaches the backend. *)
Theorem wrappers_act_for_session_user (op : Op) (s : S) :
  needs_session op = true -> owned None (trace b (exec op) s).
Proof.
  unfold trace.
  destruct op; try discriminate; intros _;
    unfold exec, fetchOwnProfile, updateProfile, uploadAvatar, createPost,
      insertPing, getUserId;
    walk; repeat split;
    first [ eexists; split; [ reflexivity | left; reflexivity ]
          | eexists; split;
            [ reflexivity | right; eexists; split; reflexivity ]
          | do 2 eexists; split; reflexivity ].
Qed.

(** X7.  [uploadAvatar] writes the profile only after a successful
    upload, and what it writes is exactly [avatar_url], set to the public
    URL of the very path it uploaded to; a failed upload leaves the profile
    alone.  It never reads the profile back with a select. *)
Theorem uploadAvatar_writes_uploaded_url (file : File) (s : S) :
  let tr := trace b (uploadAvatar file) s in
  (forall table payload filters,
      In (table, payload, filters) (updates_sent tr) ->
      exists uid path url,
        table = "profiles"
        /\ payload = JObj [("avatar_url", JStr url)]
        /\ filters = [("id", JStr uid)]
        /\ In (EvUpload "avatars" path file "3600" true (Fulfilled UploadOk)) tr
        /\ In (EvPublicUrl "avatars" path url) tr)
  /\ (existsb upload_failed tr = true -> count is_query tr = 0%nat)
  /\ (forall q r, In (EvQuery q r) tr -> exists payload, q_verb q = Update payload).
Proof.
  cbn zeta. unfold trace, uploadAvatar, updateProfile, fetchOwnProfile, getUserId.
  walk; (split; [ | split ]); try discriminate; try reflexivity;
    intros; in_cases;
    try (do 3 eexists; repeat split; simpl; eauto 8; fail);
    try (eexists; reflexivity).
Qed.

(** X8.  [createPost] without an image reads no clock and uploads
    nothing.  For a session with a user it sends exactly one query after
    the session lookup: the insert into [pings] of the given content under
    that user's id, with an undefined [image_url]; it returns the row the
    insert returned, null when the insert is refused, and throws when the
    request rejects.  Without such a user it sends no query and returns
    null. *)
Theorem createPost_without_image (content : string) (s : S) :
  let o := outcome b (createPost content None) s in
  let tr := trace b (createPost content None) s in
  let s1 := snd (respond b AuthGetSession s) in
  count is_upload tr = 0%nat
  /\ (forall n, ~ In (EvNow n) tr)
  /\ match fst (respond b AuthGetSession s) with
     | Fulfilled (SessionData (Some {| session_user := Some u |})) =>
         if String.eqb (user_id u) EmptyString then
           filter is_backend_call tr = [EvGetSession (fst (respond b AuthGetSession s))]
           /\ o = Returned JNull
         else
           let insert := createPost_query (user_id u) content JUndefined in
           let answer := fst (respond b (DbQuery insert) s1) in
           filter is_backend_call tr
           = [EvGetSession (fst (respond b AuthGetSession s)); EvQuery insert answer]
           /\ q_table insert = "pings"
           /\ (exists row, q_verb insert = Insert row
                 /\ get row "user_id" = JStr (user_id u)
                 /\ get row "content" = JStr content
                 /\ get row "image_url" = JUndefined)
           /\ o = match answer with
                  | Fulfilled (PgOk data _) => Returned data
                  | Fulfilled (PgErr _) => Returned JNull
                  | Rejected v => Threw (Reason v)
                  end
     | Fulfilled _ =>
         filter is_backend_call tr = [EvGetSession (fst (respond b AuthGetSession s))]
         /\ o = Returned JNull
     | Rejected v =>
         tr = [EvGetSession (Rejected v)] /\ o = Threw (Reason v)
     end.
Proof.
  cbn zeta. unfold outcome, trace, createPost, insertPing, getUserId.
  cbn -[String.eqb].
  destruct (respond b AuthGetSession s) as [[r | v] s1]; cbn -[String.eqb].
  2: { split; [ reflexivity | split; [ | split; reflexivity ] ].
       intros n [H | []]. discriminate H. }
  destruct r as [[[[[uid] | ]] | ] | err]; cbn -[String.eqb];
    try (destruct (respond b (Log Error "User not authenticated to create post.") s1)
           as [[] s2]; cbn;
         split; [ reflexivity | split; [ | split; reflexivity ] ];
         intros n H; simpl in H;
         repeat (destruct H as [H | H]; [ discriminate H | ]); exact H).
  destruct (String.eqb uid EmptyString); cbn -[String.eqb].
  { destruct (respond b (Log Error "User not authenticated to create post.") s1)
      as [[] s2]; cbn.
    split; [ reflexivity | split; [ | split; reflexivity ] ].
    intros n H; simpl in H.
    repeat (destruct H as [H | H]; [ discriminate H | ]); exact H. }
  destruct (respond b (DbQuery (createPost_query uid content JUndefined)) s1)
    as [[[row cnt | e] | v] s2]; cbn;
    try (destruct (respond b (Log Error "Error inserting post:") s2)
           as [[] s3]; cbn);
    (split; [ reflexivity | split ];
     [ intros n H; simpl in H;
       repeat (destruct H as [H | H]; [ discriminate H | ]); exact H
     | split; [ reflexivity | split; [ reflexivity | split; [ | reflexivity ] ] ];
       eexists; split; [ reflexivity | repeat split ] ]).
Qed.

(** Up to 2^53 in magnitude every integer is a double. *)
Lemma double_exact (z : Z) :
  (Z.abs z <= 9007199254740992)%Z -> double z = z.
Proof.
  intros Hz. unfold double.
  destruct (Z.leb_spec (Z.log2 (Z.abs z) - 52) 0) as [Hsmall | Hbig];
    [ reflexivity | ].
  assert (Hlog : Z.log2 (Z.abs z) = 53%Z).
  { apply Z.log2_le_mono in Hz.
    change (Z.log2 9007199254740992) with 53%Z in Hz. lia. }
  assert (Hpos : (0 < Z.abs z)%Z).
  { destruct (Z.lt_trichotomy 0 (Z.abs z)) as [H | [H | H]]; [ exact H | | lia ].
    rewrite <- H in Hlog. discriminate Hlog. }
  pose proof (Z.log2_spec (Z.abs z) Hpos) as [Hlow _].
  rewrite Hlog in Hlow. change (2 ^ 53)%Z with 9007199254740992%Z in Hlow.
  assert (Hcases : z = 9007199254740992%Z \/ z = (-9007199254740992)%Z) by lia.
  destruct Hcases as [-> | ->]; reflexivity.
Qed.

(** X9.  [getPosts] never throws: a rejected request is caught and gives
    null like a reported error; otherwise it hands back the rows.  It sends
    one query, newest first.  For an offset that is not negative, a limit
    of at least one and [offset + limit] up to 2^53, the range asked for is
    [offset .. offset + limit - 1], that is [limit] rows; beyond 2^53 the
    sum is rounded, see [getPosts_range_beyond_safe_integers]. *)
Theorem getPosts_total (limit offset : Z) (s : S) :
  outcome b (getPosts limit offset) s
  = Returned match fst (respond b (DbQuery (getPosts_query limit offset)) s) with
             | Fulfilled (PgOk data _) => data
             | _ => JNull
             end
  /\ filter is_backend_call (trace b (getPosts limit offset) s)
     = [EvQuery (getPosts_query limit offset)
                (fst (respond b (DbQuery (getPosts_query limit offset)) s))]
  /\ q_order (getPosts_query limit offset) = Some ("created_at", false)
  /\ ((0 <= offset)%Z -> (1 <= limit)%Z ->
      (offset + limit <= 9007199254740992)%Z ->
      exists lo hi,
        q_range (getPosts_query limit offset) = Some (lo, hi)
        /\ lo = offset /\ (lo <= hi)%Z /\ (hi - lo + 1 = limit)%Z).
Proof.
  assert (Hrange : (0 <= offset)%Z -> (1 <= limit)%Z ->
                   (offset + limit <= 9007199254740992)%Z ->
                   exists lo hi,
                     q_range (getPosts_query limit offset) = Some (lo, hi)
                     /\ lo = offset /\ (lo <= hi)%Z /\ (hi - lo + 1 = limit)%Z).
  { intros Ho Hl Hsum. exists offset, (offset + limit - 1)%Z.
    split; [ | lia ].
    unfold getPosts_query, number_sub, number_add. cbn -[double].
    rewrite (double_exact (offset + limit)) by lia.
    rewrite (double_exact (offset + limit - 1)) by lia.
    reflexivity. }
  unfold outcome, trace, getPosts. cbn -[getPosts_query].
  destruct (respond b (DbQuery (getPosts_query limit offset)) s)
    as [[[data cnt | e] | v] s1]; cbn -[getPosts_query].
  - repeat split. exact Hrange.
  - destruct (respond b (Log Error "Error fetching posts:") s1) as [[] s2].
    cbn -[getPosts_query]. repeat split. exact Hrange.
  - destruct (respond b (Log Error "Exception fetching posts:") s1) as [[] s2].
    cbn -[getPosts_query]. repeat split. exact Hrange.
Qed.

End ApiServiceFacts.

Lemma signed_out_wrappers_do_nothing_witness :
  needs_session (Wrappers.CreatePost "hello" (Some photo)) = true
  /\ signed_out no_user_backend tt = true
  /\ outcome no_user_backend
       (Wrappers.exec (Wrappers.CreatePost "hello" (Some photo))) tt
     = Returned JNull
  /\ exists msg,
       trace no_user_backend
         (Wrappers.exec (Wrappers.CreatePost "hello" (Some photo))) tt
       = [EvGetSession (fst (respond no_user_backend AuthGetSession tt));
          EvLog Error msg].
Proof.
  split; [ reflexivity | ].
  split; [ reflexivity | ].
  apply (signed_out_wrappers_do_nothing no_user_backend
           (Wrappers.CreatePost "hello" (Some photo)) tt);
    reflexivity.
Defined.

Lemma getPosts_total_witness :
  exists lo hi,
    q_range (ApiService.getPosts_query 20 40) = Some (lo, hi)
    /\ lo = 40%Z /\ (lo <= hi)%Z /\ (hi - lo + 1 = 20)%Z.
Proof.
  apply (getPosts_total signed_in_backend 20 40 tt); lia.
Defined.

(** Beyond 2^53 the sum is rounded to a double before 1 is taken off: for
    one row from offset 2^53 the range asked for ends below its start. *)
Example getPosts_range_beyond_safe_integers :
  q_range (ApiService.getPosts_query 1 9007199254740992)
  = Some (9007199254740992, 9007199254740991)%Z.
Proof. reflexivity. Qed.

Lemma wrappers_act_for_session_user_witness :
  needs_session (Wrappers.UploadAvatar photo) = true
  /\ owned None
       (trace signed_in_backend (Wrappers.exec (Wrappers.UploadAvatar photo)) tt).
Proof.
  split; [ reflexivity | ].
  apply (wrappers_act_for_session_user signed_in_backend
           (Wrappers.UploadAvatar photo) tt).
  reflexivity.
Defined.

(* ===================================================================== *)
(** ** Upload paths *)
(* ===================================================================== *)

Section UploadPaths.
Import ApiService.

(** No character of [s] is [c]. *)
Fixpoint free_of (c : ascii) (s : string) : Prop :=
  match s with
  | EmptyString => True
  | String a rest => a <> c /\ free_of c rest
  end.

Lemma digits_free_of_underscore (d : Decimal.uint) :
  free_of "_" (NilEmpty.string_of_uint d).
Proof.
  induction d; simpl; try exact I; (split; [ discriminate | exact IHd ]).
Qed.

Lemma of_N_free_of_underscore (n : N) : free_of "_" (of_N n).
Proof.
  unfold of_N, NilZero.string_of_uint.
  destruct (N.to_uint n); try apply (digits_free_of_underscore (_ _)).
  simpl. split; [ discriminate | exact I ].
Qed.

Lemma of_N_injective (n m : N) : of_N n = of_N m -> n = m.
Proof.
  unfold of_N. intros H.
  assert (Hu : N.to_uint n = N.to_uint m).
  { assert (Hn : forall k, N.to_uint k <> Decimal.Nil).
    { intros [ | p]; simpl; [ discriminate | ].
      apply DecimalPos.Unsigned.to_uint_nonnil. }
    pose proof (NilZero.usu (N.to_uint n) (Hn n)) as H1.
    pose proof (NilZero.usu (N.to_uint m) (Hn m)) as H2.
    rewrite H in H1. rewrite H1 in H2. now injection H2. }
  rewrite <- (DecimalN.Unsigned.of_to n), <- (DecimalN.Unsigned.of_to m).
  now rewrite Hu.
Qed.

Lemma append_cancel_l (p x y : string) :
  (p ++ x)%string = (p ++ y)%string -> x = y.
Proof.
  induction p as [ | a p IH]; simpl; intros H; [ exact H | ].
  injection H as H. now apply IH.
Qed.

(** The first [c] of a string tells its [c]-free prefix from the rest. *)
Lemma split_at_first (c : ascii) (d1 d2 r1 r2 : string) :
  free_of c d1 -> free_of c d2 ->
  (d1 ++ String c r1)%string = (d2 ++ String c r2)%string ->
  d1 = d2 /\ r1 = r2.
Proof.
  revert d2. induction d1 as [ | a d1 IH]; intros [ | a2 d2]; simpl;
    intros H1 H2 Heq.
  - injection Heq as ->. now split.
  - injection Heq as Ha _. destruct H2 as [H2 _]. now contradiction H2.
  - injection Heq as Ha _. destruct H1 as [H1 _]. now contradiction H1.
  - injection Heq as -> Heq. destruct H1 as [_ H1], H2 as [_ H2].
    destruct (IH d2 H1 H2 Heq) as [-> ->]. now split.
Qed.

(** X10.  Below one user's folder of a bucket, the upload path tells the
    upload: two uploads get the same path only when they have the same
    timestamp and the same file name.  (Those two do collide, and the
    upload is sent with [upsert], so the later one replaces the earlier.) *)
Theorem filePath_injective
    (bucket userId : string) (now1 now2 : N) (f1 f2 : File) :
  filePath bucket userId now1 f1 = filePath bucket userId now2 f2 <->
  now1 = now2 /\ file_name f1 = file_name f2.
Proof.
  split.
  - unfold filePath. intros H.
    do 4 apply append_cancel_l in H.
    change ("_" ++ file_name f1)%string with (String "_" (file_name f1)) in H.
    change ("_" ++ file_name f2)%string with (String "_" (file_name f2)) in H.
    apply split_at_first in H; try apply of_N_free_of_underscore.
    destruct H as [Hn Hf]. split; [ now apply of_N_injective | exact Hf ].
  - intros [-> Hf]. unfold filePath. now rewrite Hf.
Qed.

End UploadPaths.

(* ===================================================================== *)
(** ** More about the follow helpers *)
(* ===================================================================== *)

Section FollowFacts.
Import ApiService Follows Wrappers.
Context {S : Type} (b : Backend S).

(** How the helpers that throw turn the answer to their query into an
    outcome. *)
Definition thrown_or (v : JsVal) (r : Settled PgResponse) : Outcome JsVal :=
  match r with
  | Fulfilled (PgOk _ _) => Returned v
  | Fulfilled (PgErr e) => Threw (ErrorObject (pg_message e))
  | Rejected reason => Threw (Reason reason)
  end.

(** X11.  [followUser] and [unfollowUser] send one request each and
    return undefined when it succeeds; when the backend reports an error
    they throw an [Error] with the backend's message.  The insert names only
    [followed_id] and the delete filters only on [followed_id]: the
    follower is never named by the client. *)
Theorem follow_unfollow_outcomes (id : string) (s : S) :
  (outcome b (followUser id) s
   = thrown_or JUndefined (fst (respond b (DbQuery (followUser_query id)) s))
   /\ filter is_backend_call (trace b (followUser id) s)
      = [EvQuery (followUser_query id)
                 (fst (respond b (DbQuery (followUser_query id)) s))])
  /\ (outcome b (unfollowUser id) s
      = thrown_or JUndefined (fst (respond b (DbQuery (unfollowUser_query id)) s))
      /\ filter is_backend_call (trace b (unfollowUser id) s)
         = [EvQuery (unfollowUser_query id)
                    (fst (respond b (DbQuery (unfollowUser_query id)) s))])
  /\ (exists row, q_verb (followUser_query id) = Insert row
        /\ keys row = ["followed_id"] /\ q_eq (followUser_query id) = [])
  /\ (q_verb (unfollowUser_query id) = Delete
      /\ q_eq (unfollowUser_query id) = [("followed_id", JStr id)]).
Proof.
  unfold outcome, trace, followUser, unfollowUser, thrown_or. cbn.
  destruct (respond b (DbQuery (followUser_query id)) s)
    as [[[d1 c1 | e1] | v1] s1];
    destruct (respond b (DbQuery (unfollowUser_query id)) s)
      as [[[d2 c2 | e2] | v2] s2]; cbn;
    repeat match goal with
           | |- context [respond b (Log Error ?m) ?st] =>
               destruct (respond b (Log Error m) st) as [[] ?]; cbn
           end;
    repeat split; eexists; repeat split.
Qed.


End FollowFacts.

(* ===================================================================== *)
(** ** More about the auth provider, and the guard of the routes *)
(* ===================================================================== *)

Module AppShell.

(** What [AuthRequiredWrapper] renders. *)
Inductive View :=
| AppSkeleton
| NavigateToAuth                   (* <Navigate to="/auth" replace /> *)
| Children.

(** [AuthRequiredWrapper], given what [useAuth()] hands it; its
    [console.log] lines are left out. *)
Definition AuthRequiredWrapper (user : option User) (loading : bool) : View :=
  if loading then AppSkeleton
  else match user with
       | None => NavigateToAuth
       | Some _ => Children
       end.

(** The wrapper under a provider in state [st]. *)
Definition guarded_view (st : AuthProvider.State) : View :=
  AuthRequiredWrapper (AuthProvider.user st) (AuthProvider.loading st).

End AppShell.

Section ProviderFacts.
Import AuthProvider.
Local Open Scope N_scope.

(** [session?.user ?? null] *)
Definition user_of (s : option Session) : option User :=
  match s with
  | Some x => session_user x
  | None => None
  end.

Definition is_db (c : Call) : bool :=
  match c with Db _ => true | _ => false end.
Definition is_setTimeout (c : Call) : bool :=
  match c with SetTimeout _ => true | _ => false end.

(** No step is the answer of the session check. *)
Definition no_session_answer (steps : list Step) : bool :=
  forallb (fun x => match x with
                    | Occur (SessionSettled _) => false
                    | _ => true
                    end) steps.

(** The four pieces of state the provider hands to its consumers. *)
Definition context_value (st : State)
  : option User * option Session * bool * bool :=
  (user st, session st, loading st, isAdmin st).

Lemma timeout_handler_keeps_state (st : State) :
  user (timeout_handler st) = user st
  /\ session (timeout_handler st) = session st
  /\ isAdmin (timeout_handler st) = isAdmin st
  /\ isMounted (timeout_handler st) = isMounted st
  /\ sessionCheck (timeout_handler st) = sessionCheck st
  /\ timers (timeout_handler st) = timers st
  /\ filter is_db (calls (timeout_handler st)) = filter is_db (calls st)
  /\ filter is_setTimeout (calls (timeout_handler st))
     = filter is_setTimeout (calls st)
  /\ (isMounted st = false -> loading (timeout_handler st) = loading st).
Proof.
  unfold timeout_handler.
  destruct (isMounted st) eqn:Hm; cbn; rewrite ?filter_app; cbn;
    rewrite ?Hm; repeat split; intros;
    first [ apply app_nil_r | congruence ].
Qed.

Lemma timeouts_keep_state (due : list N) (st : State) :
  let st' := fold_left (fun st _ => timeout_handler st) due st in
  user st' = user st /\ session st' = session st /\ isAdmin st' = isAdmin st
  /\ isMounted st' = isMounted st /\ sessionCheck st' = sessionCheck st
  /\ timers st' = timers st
  /\ filter is_db (calls st') = filter is_db (calls st)
  /\ filter is_setTimeout (calls st') = filter is_setTimeout (calls st)
  /\ (isMounted st = false -> loading st' = loading st).
Proof.
  revert st. induction due as [ | t due IH]; intros st; simpl.
  - now repeat split.
  - destruct (IH (timeout_handler st))
      as (-> & -> & -> & -> & -> & -> & -> & -> & Hl).
    destruct (timeout_handler_keeps_state st)
      as (-> & -> & -> & Hm & -> & -> & -> & -> & Hl0).
    rewrite Hm in *. repeat split.
    intros H. rewrite Hl by exact H. now apply Hl0.
Qed.

Lemma step_user_matches_session (x : Step) (st : State) :
  user st = user_of (session st) ->
  user (step x st) = user_of (session (step x st)).
Proof.
  destruct x as [ms | e]; simpl step.
  - unfold elapse.
    match goal with
    | |- context [fold_left ?f ?due ?st0] =>
        destruct (timeouts_keep_state due st0) as (-> & -> & _)
    end.
    now cbn.
  - paths e st; intros H; cbn in *; auto.
Qed.

Lemma user_matches_session_aux (sub : nat) (steps : list Step) :
  user (run steps (mount sub)) = user_of (session (run steps (mount sub))).
Proof.
  assert (Hgen : forall st, user st = user_of (session st) ->
                   user (run steps st) = user_of (session (run steps st))).
  { induction steps as [ | x rest IH]; intros st H; [ exact H | ].
    simpl. apply IH. now apply step_user_matches_session. }
  now apply Hgen.
Qed.

(** X13.  Whatever happens to a mounted provider, in whatever order, the
    [user] it exposes is the user of the [session] it exposes (and null
    when there is no session): the two are always set together. *)
Theorem user_matches_session (sub : nat) (steps : list Step) :
  user (run steps (mount sub)) = user_of (session (run steps (mount sub))).
Proof.
  exact (user_matches_session_aux sub steps).
Qed.

(** X14.  [loading] never goes back to true: once the provider has
    finished loading it stays so, whatever happens afterwards. *)
Theorem loading_never_returns (sub : nat) (before after : list Step) :
  loading (run before (mount sub)) = false ->
  loading (run (before ++ after) (mount sub)) = false.
Proof.
  rewrite run_app. generalize (run before (mount sub)).
  induction after as [ | x rest IH]; intros st H; [ exact H | ].
  simpl. apply IH. destruct x as [ms | e]; simpl.
  - now apply elapse_frame.
  - now apply occur_frame.
Qed.

Lemma step_unmounted (x : Step) (st : State) :
  isMounted st = false ->
  isMounted (step x st) = false
  /\ filter is_db (calls (step x st)) = filter is_db (calls st)
  /\ (no_session_answer [x] = true ->
      context_value (step x st) = context_value st).
Proof.
  unfold context_value.
  destruct x as [ms | e]; simpl step.
  - intros Hm. unfold elapse.
    match goal with
    | |- context [fold_left ?f ?due ?st0] =>
        destruct (timeouts_keep_state due st0)
          as (Hu & Hs & Ha & Hmo & _ & _ & Hq & _ & Hl);
        cbn zeta in Hu, Hs, Ha, Hmo, Hq, Hl
    end.
    rewrite Hu, Hs, Ha, Hmo, Hq, Hl by exact Hm. now repeat split.
  - paths e st; intros Hm; try discriminate Hm; try subst m; cbn;
      rewrite ?filter_app; cbn; rewrite ?List.app_nil_r;
      (split; [ reflexivity | split; [ reflexivity | ] ]);
      intros Hs; (discriminate Hs || reflexivity).
Qed.

(** X15.  After the cleanup has run the provider sends no further query,
    and nothing but a late answer of the initial session check can still
    change what it exposes: auth state changes, answers to profile fetches
    and the timeout all leave [user], [session], [loading] and [isAdmin]
    as they were. *)
Theorem unmounted_provider_is_inert (st : State) (steps : list Step) :
  isMounted st = false ->
  isMounted (run steps st) = false
  /\ filter is_db (calls (run steps st)) = filter is_db (calls st)
  /\ (no_session_answer steps = true ->
      context_value (run steps st) = context_value st).
Proof.
  revert st. induction steps as [ | x rest IH]; intros st Hm.
  - now repeat split.
  - destruct (step_unmounted x st Hm) as (Hm1 & Hq1 & Hc1).
    destruct (IH (step x st) Hm1) as (Hm2 & Hq2 & Hc2).
    simpl run. rewrite Hm2, Hq2, Hq1. repeat split.
    intros Hs. simpl in Hs. apply andb_prop in Hs. destruct Hs as [Hx Hr].
    rewrite Hc2 by exact Hr. apply Hc1. simpl. now rewrite Hx.
Qed.

(** The timeout is set at the answer of the session check and nowhere
    else. *)
Definition timeout_budget (st : State) : Prop :=
  (List.length (filter is_setTimeout (calls st))
   + (if sessionCheck st then 1 else 0) <= 1)%nat.

Lemma step_timeout_budget (x : Step) (st : State) :
  timeout_budget st -> timeout_budget (step x st).
Proof.
  unfold timeout_budget.
  destruct x as [ms | e]; simpl step.
  - unfold elapse.
    match goal with
    | |- context [fold_left ?f ?due ?st0] =>
        destruct (timeouts_keep_state due st0)
          as (_ & _ & _ & _ & -> & _ & _ & -> & _)
    end.
    now cbn.
  - paths e st; rewrite ?filter_app, ?length_app; cbn; intros H; lia.
Qed.

(** X16.  One mount arms the safety timeout at most once, and only
    once the session check has been answered: while the check is pending no
    timeout has been set. *)
Theorem timeout_armed_at_most_once (sub : nat) (steps : list Step) :
  let st := run steps (mount sub) in
  (List.length (filter is_setTimeout (calls st)) <= 1)%nat
  /\ (sessionCheck st = true -> filter is_setTimeout (calls st) = []).
Proof.
  assert (Hgen : forall st, timeout_budget st -> timeout_budget (run steps st)).
  { induction steps as [ | x rest IH]; intros st H; [ exact H | ].
    simpl. apply IH. now apply step_timeout_budget. }
  assert (H : timeout_budget (run steps (mount sub))).
  { apply Hgen. unfold timeout_budget. cbn. lia. }
  unfold timeout_budget in H. cbn zeta. split; [ lia | ].
  intros Hs. rewrite Hs in H.
  destruct (filter is_setTimeout (calls (run steps (mount sub))));
    [ reflexivity | simpl in H; lia ].
Qed.

(** X17.  A page behind [AuthRequiredWrapper] is rendered only when the
    provider has finished loading and holds a session whose user is the
    user it exposes; with no user the wrapper redirects to /auth, and
    while the provider loads it shows the skeleton and redirects nowhere. *)
Theorem guarded_pages_need_session (sub : nat) (steps : list Step) :
  let st := run steps (mount sub) in
  (AppShell.guarded_view st = AppShell.Children ->
     loading st = false
     /\ exists sess u, session st = Some sess
          /\ session_user sess = Some u /\ user st = Some u)
  /\ (AppShell.guarded_view st = AppShell.NavigateToAuth ->
        loading st = false /\ user st = None)
  /\ (loading st = true -> AppShell.guarded_view st = AppShell.AppSkeleton).
Proof.
  cbn zeta. pose proof (user_matches_session_aux sub steps) as Hu.
  unfold AppShell.guarded_view, AppShell.AuthRequiredWrapper.
  destruct (loading (run steps (mount sub))); repeat split; try discriminate.
  - destruct (user (run steps (mount sub))) as [u | ] eqn:Hus;
      [ | discriminate ].
    destruct (session (run steps (mount sub))) as [sess | ];
      [ | discriminate ].
    exists sess, u. now repeat split.
  - now destruct (user (run steps (mount sub))).
Qed.

End ProviderFacts.

Lemma loading_never_returns_witness :
  let before :=
    [AuthProvider.Occur
       (AuthProvider.SessionSettled (Fulfilled (SessionData None)))] in
  let after :=
    [AuthProvider.Occur
       (AuthProvider.AuthStateChange "SIGNED_IN" (Some admin_session));
     AuthProvider.Elapse 5000] in
  AuthProvider.loading (AuthProvider.run before (AuthProvider.mount 0)) = false
  /\ AuthProvider.loading
       (AuthProvider.run (before ++ after) (AuthProvider.mount 0)) = false.
Proof.
  split; [ reflexivity | ].
  apply (loading_never_returns 0
           [AuthProvider.Occur
              (AuthProvider.SessionSettled (Fulfilled (SessionData None)))]
           [AuthProvider.Occur
              (AuthProvider.AuthStateChange "SIGNED_IN" (Some admin_session));
            AuthProvider.Elapse 5000]).
  reflexivity.
Defined.

Lemma unmounted_provider_is_inert_witness :
  let st := AuthProvider.run [AuthProvider.Occur AuthProvider.Unmount]
              (AuthProvider.mount 0) in
  let steps :=
    [AuthProvider.Occur
       (AuthProvider.AuthStateChange "SIGNED_IN" (Some admin_session));
     AuthProvider.Elapse 5000] in
  AuthProvider.isMounted st = false
  /\ AuthProvider.isMounted (AuthProvider.run steps st) = false
  /\ filter is_db (AuthProvider.calls (AuthProvider.run steps st))
     = filter is_db (AuthProvider.calls st)
  /\ (no_session_answer steps = true ->
      context_value (AuthProvider.run steps st) = context_value st).
Proof.
  split; [ reflexivity | ].
  apply (unmounted_provider_is_inert
           (AuthProvider.run [AuthProvider.Occur AuthProvider.Unmount]
              (AuthProvider.mount 0))
           [AuthProvider.Occur
              (AuthProvider.AuthStateChange "SIGNED_IN" (Some admin_session));
            AuthProvider.Elapse 5000]).
  reflexivity.
Defined.

(* ===================================================================== *)
(** ** signIn, signUp, signOut *)
(* ===================================================================== *)

Module AuthActions.

(** The call each action makes on [supabase.auth]. *)
Inductive AuthRequest :=
| SignInWithPassword (email password : string)
| SignUp (req : Migration.SignUpRequest)
| SignOut.

(** What one invocation does: the request it sends, what it logs and
    shows, and what it returns to its caller. *)
Record Run (A : Type) := {
  request : AuthRequest;
  output : list Logger.Output;
  result : Outcome A
}.
Arguments request {A} r.
Arguments output {A} r.
Arguments result {A} r.

(** An [AuthError] as the logger receives it. *)
Definition error_details (e : AuthError) : JsVal :=
  JObj [("message", JStr (auth_message e))].

(** [{ userMessage: error.message, showToast: true }] *)
Definition failure_options (e : AuthError) : Logger.LogOptions :=
  {| Logger.userMessage := Some (auth_message e);
     Logger.showToast := Some true;
     Logger.toastVariant := None |}.

(** The logging after the call: [error] is the [error] of the answer;
    a rejection is not caught, so nothing is logged. *)
Definition after_call (now : string) (failed succeeded : string)
    (answer : Settled (option AuthError)) : list Logger.Output :=
  match answer with
  | Fulfilled (Some e) =>
      Logger.error now failed (error_details e) (Some (failure_options e))
  | Fulfilled None => Logger.info now succeeded JUndefined None
  | Rejected _ => []
  end.

(** [signIn]; [t0] and [t1] are the times of its two log entries. *)
Definition signIn (t0 t1 : string) (email password : string)
    (answer : Settled (option AuthError)) : Run (option AuthError) :=
  {| request := SignInWithPassword email password;
     output :=
       Logger.info t0 "Attempting sign in" (JObj [("email", JStr email)]) None
       ++ after_call t1 "Sign in error" "User signed in successfully." answer;
     result := match answer with
               | Fulfilled error => Returned error
               | Rejected v => Threw (Reason v)
               end |}.

(** [import.meta.env.VITE_APP_URL || `${window.location.origin}/`] *)
Definition redirectUrl (app_url : option string) (origin : string) : string :=
  match app_url with
  | Some u => if String.eqb u EmptyString then (origin ++ "/")%string else u
  | None => (origin ++ "/")%string
  end.

Definition signUp (t0 t1 : string) (app_url : option string) (origin : string)
    (email password username : string)
    (answer : Settled (option AuthError)) : Run (option AuthError) :=
  {| request :=
       SignUp (Migration.signUp_request email password username
                 (redirectUrl app_url origin));
     output :=
       Logger.info t0 "Attempting sign up"
         (JObj [("email", JStr email); ("username", JStr username)]) None
       ++ after_call t1 "Sign up error"
            "User signed up successfully. Check email for verification." answer;
     result := match answer with
               | Fulfilled error => Returned error
               | Rejected v => Threw (Reason v)
               end |}.

Definition signOut (t0 t1 : string) (answer : Settled (option AuthError))
  : Run unit :=
  {| request := SignOut;
     output :=
       Logger.info t0 "Attempting sign out." JUndefined None
       ++ after_call t1 "Sign out error" "User signed out successfully." answer;
     result := match answer with
               | Fulfilled _ => Returned tt
               | Rejected v => Threw (Reason v)
               end |}.

End AuthActions.

Section AuthActionFacts.
Import AuthActions.

(** X18.  The password given to [signIn] or [signUp] goes into the
    request and nowhere else: what is logged, what is shown and what is
    returned do not depend on it. *)
Theorem password_stays_out_of_logs
    (t0 t1 email username origin : string) (app_url : option string)
    (answer : Settled (option AuthError)) (p1 p2 : string) :
  (output (signIn t0 t1 email p1 answer) = output (signIn t0 t1 email p2 answer)
   /\ result (signIn t0 t1 email p1 answer) = result (signIn t0 t1 email p2 answer)
   /\ request (signIn t0 t1 email p1 answer) = SignInWithPassword email p1)
  /\ (output (signUp t0 t1 app_url origin email p1 username answer)
      = output (signUp t0 t1 app_url origin email p2 username answer)
      /\ result (signUp t0 t1 app_url origin email p1 username answer)
         = result (signUp t0 t1 app_url origin email p2 username answer)
      /\ exists req,
           request (signUp t0 t1 app_url origin email p1 username answer)
           = SignUp req /\ Migration.su_password req = p1).
Proof.
  repeat split. eexists. split; reflexivity.
Qed.

(** X19.  [signIn] and [signUp] hand the error of the backend back
    unchanged (null on success) and show it: a failure whose message is not
    empty gives exactly one toast, destructive, titled 'Error', with that
    message.  [signOut] returns nothing in either case, so its caller
    cannot tell a failed sign-out from a successful one; only the toast
    tells the user. *)
Theorem auth_actions_report_errors
    (t0 t1 email password username origin : string) (app_url : option string)
    (answer : option AuthError) :
  let shown :=
    match answer with
    | Some e =>
        if String.eqb (auth_message e) EmptyString then []
        else [ {| Logger.title := "Error";
                  Logger.description := Some (auth_message e);
                  Logger.variant := Some Logger.TDestructive |} ]
    | None => []
    end in
  (result (signIn t0 t1 email password (Fulfilled answer)) = Returned answer
   /\ Logger.toasts (output (signIn t0 t1 email password (Fulfilled answer)))
      = shown)
  /\ (result (signUp t0 t1 app_url origin email password username
                (Fulfilled answer)) = Returned answer
      /\ Logger.toasts
           (output (signUp t0 t1 app_url origin email password username
                      (Fulfilled answer))) = shown)
  /\ (result (signOut t0 t1 (Fulfilled answer)) = Returned tt
      /\ Logger.toasts (output (signOut t0 t1 (Fulfilled answer))) = shown).
Proof.
  destruct answer as [[m] | ]; cbn -[String.eqb];
    [ destruct (String.eqb m EmptyString) | ]; repeat split.
Qed.

End AuthActionFacts.

(* ===================================================================== *)
(** ** The migration as a change of the catalog *)
(* ===================================================================== *)

Module Catalog.

Inductive Command := ForInsert | ForUpdate | ForDelete.

(** The one expression the policies use. *)
Inductive Expr :=
| UidIsUserId.                      (* auth.uid() = user_id *)

Record Policy := {
  pol_schema : string;
  pol_table : string;
  pol_name : string;
  pol_command : Command;
  pol_using : option Expr;
  pol_check : option Expr
}.

(** A function by what it does. *)
Inductive Body :=
| HandleNewUser                     (* the body of this migration *)
| OtherBody (source : string).

(** A function is identified by its schema, its name and the types of its
    arguments. *)
Record Function := {
  fn_schema : string;
  fn_name : string;
  fn_args : list string;
  fn_returns : string;
  fn_body : Body
}.

(** An AFTER INSERT, FOR EACH ROW trigger and the function it executes,
    which takes no arguments. *)
Record Trigger := {
  trg_name : string;
  trg_schema : string;
  trg_table : string;
  trg_function_schema : string;
  trg_function : string
}.

(** The part of the system catalog the migration reads and writes: names
    and definitions.  Owners and privileges are left out: the migration is
    taken to be run by a role that may do each of its steps. *)
Record Catalog := {
  tables : list (string * string);          (* schema, name *)
  policies : list Policy;
  functions : list Function;
  triggers : list Trigger
}.

Definition has_table (schema name : string) (c : Catalog) : bool :=
  existsb (fun t => String.eqb (fst t) schema && String.eqb (snd t) name)
          (tables c).

(** [EXISTS (SELECT 1 FROM pg_policies WHERE tablename = t AND
    policyname = n)]: the schema is not looked at. *)
Definition policy_listed (t n : string) (c : Catalog) : bool :=
  existsb (fun p => String.eqb (pol_table p) t && String.eqb (pol_name p) n)
          (policies c).

(** [CREATE POLICY]: an error when the table does not exist, or has a
    policy of that name already. *)
Definition create_policy (p : Policy) (c : Catalog) : option Catalog :=
  if negb (has_table (pol_schema p) (pol_table p) c) then None
  else if existsb (fun q => String.eqb (pol_schema q) (pol_schema p)
                            && String.eqb (pol_table q) (pol_table p)
                            && String.eqb (pol_name q) (pol_name p)) (policies c)
  then None
  else Some {| tables := tables c; policies := policies c ++ [p];
               functions := functions c; triggers := triggers c |}.

(** [DO $$ BEGIN IF NOT EXISTS (...) THEN CREATE POLICY ...; END IF; END $$] *)
Definition create_policy_if_not_listed (p : Policy) (c : Catalog)
  : option Catalog :=
  if policy_listed (pol_table p) (pol_name p) c then Some c
  else create_policy p c.

Definition same_args (a b : list string) : bool :=
  if list_eq_dec string_dec a b then true else false.

Definition same_function (f g : Function) : bool :=
  String.eqb (fn_schema f) (fn_schema g) && String.eqb (fn_name f) (fn_name g)
  && same_args (fn_args f) (fn_args g).

(** The function is there already, and returns another type. *)
Definition other_return_type (f g : Function) : bool :=
  same_function f g && negb (String.eqb (fn_returns g) (fn_returns f)).

(** [CREATE OR REPLACE FUNCTION]: an error ("cannot change return type of
    existing function") when the function exists with another return
    type; otherwise the definition replaces the existing one, or is
    added. *)
Definition create_or_replace_function (f : Function) (c : Catalog)
  : option Catalog :=
  if existsb (other_return_type f) (functions c) then None
  else Some {| tables := tables c; policies := policies c;
               functions :=
                 if existsb (same_function f) (functions c)
                 then map (fun g => if same_function f g then f else g)
                          (functions c)
                 else functions c ++ [f];
               triggers := triggers c |}.

Definition on_table (name schema table : string) (t : Trigger) : bool :=
  String.eqb (trg_name t) name && String.eqb (trg_schema t) schema
  && String.eqb (trg_table t) table.

(** [DROP TRIGGER IF EXISTS name ON schema.table]: no error when the
    trigger, or the table, does not exist. *)
Definition drop_trigger_if_exists (name schema table : string) (c : Catalog)
  : Catalog :=
  {| tables := tables c; policies := policies c; functions := functions c;
     triggers := filter (fun t => negb (on_table name schema table t))
                        (triggers c) |}.

(** The function a trigger names: without arguments, returning [trigger]. *)
Definition trigger_function (t : Trigger) (g : Function) : bool :=
  String.eqb (fn_schema g) (trg_function_schema t)
  && String.eqb (fn_name g) (trg_function t)
  && same_args (fn_args g) []
  && String.eqb (fn_returns g) "trigger".

(** [CREATE TRIGGER]: an error when the table does not exist, when the
    function does not exist, or when the table has a trigger of that name
    already. *)
Definition create_trigger (t : Trigger) (c : Catalog) : option Catalog :=
  if negb (has_table (trg_schema t) (trg_table t) c) then None
  else if negb (existsb (trigger_function t) (functions c)) then None
  else if existsb (on_table (trg_name t) (trg_schema t) (trg_table t))
                  (triggers c)
  then None
  else Some {| tables := tables c; policies := policies c;
               functions := functions c; triggers := triggers c ++ [t] |}.

Definition create_pings : Policy :=
  {| pol_schema := "public"; pol_table := "pings";
     pol_name := "Users can create pings."; pol_command := ForInsert;
     pol_using := None; pol_check := Some UidIsUserId |}.

Definition update_pings : Policy :=
  {| pol_schema := "public"; pol_table := "pings";
     pol_name := "Users can update their own pings."; pol_command := ForUpdate;
     pol_using := Some UidIsUserId; pol_check := None |}.

Definition delete_pings : Policy :=
  {| pol_schema := "public"; pol_table := "pings";
     pol_name := "Users can delete their own pings."; pol_command := ForDelete;
     pol_using := Some UidIsUserId; pol_check := None |}.

Definition handle_new_user_function : Function :=
  {| fn_schema := "public"; fn_name := "handle_new_user"; fn_args := [];
     fn_returns := "trigger"; fn_body := HandleNewUser |}.

Definition on_auth_user_created : Trigger :=
  {| trg_name := "on_auth_user_created"; trg_schema := "auth";
     trg_table := "users"; trg_function_schema := "public";
     trg_function := "handle_new_user" |}.

Definition and_then {A B} (x : option A) (f : A -> option B) : option B :=
  match x with Some a => f a | None => None end.

(** The five steps of the migration, in order; [None] when one of them
    raises an error. *)
Definition migrate (c : Catalog) : option Catalog :=
  and_then (create_policy_if_not_listed create_pings c) (fun c =>
  and_then (create_policy_if_not_listed update_pings c) (fun c =>
  and_then (create_policy_if_not_listed delete_pings c) (fun c =>
  and_then (create_or_replace_function handle_new_user_function c) (fun c =>
  create_trigger on_auth_user_created
    (drop_trigger_if_exists "on_auth_user_created" "auth" "users" c))))).

End Catalog.

Section CatalogFacts.
Import Catalog.

Lemma and_then_Some {A B} (x : option A) (f : A -> option B) (b : B) :
  and_then x f = Some b -> exists a, x = Some a /\ f a = Some b.
Proof.
  destruct x as [a | ]; simpl; [ | discriminate ]. intros H. now exists a.
Qed.

Lemma same_function_refl (f : Function) : same_function f f = true.
Proof.
  unfold same_function, same_args. rewrite !String.eqb_refl.
  now destruct (list_eq_dec string_dec (fn_args f) (fn_args f)).
Qed.

(** One guarded [CREATE POLICY] that went through: the policy is listed
    afterwards, nothing else has changed, and an already listed policy was
    left as it was. *)
Lemma create_policy_if_not_listed_Some (p : Policy) (c c' : Catalog) :
  create_policy_if_not_listed p c = Some c' ->
  exists new,
    c' = {| tables := tables c; policies := policies c ++ new;
            functions := functions c; triggers := triggers c |}
    /\ (policy_listed (pol_table p) (pol_name p) c = true -> new = [])
    /\ policy_listed (pol_table p) (pol_name p) c' = true.
Proof.
  unfold create_policy_if_not_listed.
  destruct (policy_listed (pol_table p) (pol_name p) c) eqn:Hl.
  - intros H. injection H as <-. exists []. rewrite List.app_nil_r.
    destruct c. simpl in *. repeat split. exact Hl.
  - unfold create_policy.
    destruct (negb (has_table (pol_schema p) (pol_table p) c)); [ discriminate | ].
    destruct (existsb _ (policies c)); [ discriminate | ].
    intros H. injection H as <-. exists [p].
    repeat split; [ discriminate | ].
    unfold policy_listed. simpl. rewrite existsb_app. simpl.
    now rewrite !String.eqb_refl, orb_true_r.
Qed.

Lemma create_policy_if_not_listed_again (p : Policy) (c : Catalog) :
  policy_listed (pol_table p) (pol_name p) c = true ->
  create_policy_if_not_listed p c = Some c.
Proof.
  unfold create_policy_if_not_listed. now intros ->.
Qed.

(** The last three statements of the migration. *)
Definition install (c : Catalog) : option Catalog :=
  and_then (create_or_replace_function handle_new_user_function c) (fun c =>
  create_trigger on_auth_user_created
    (drop_trigger_if_exists "on_auth_user_created" "auth" "users" c)).

(** A catalog in which the function and the trigger are in place. *)
Definition installed (c : Catalog) : Prop :=
  has_table "auth" "users" c = true
  /\ existsb (same_function handle_new_user_function) (functions c) = true
  /\ map (fun g => if same_function handle_new_user_function g
                   then handle_new_user_function else g) (functions c)
     = functions c
  /\ exists ts,
       triggers c = ts ++ [on_auth_user_created]
       /\ filter (fun t => negb (on_table "on_auth_user_created" "auth" "users" t)) ts
          = ts.

Lemma replaced_functions (f : Function) (fs : list Function) :
  let fs' := if existsb (same_function f) fs
             then map (fun g => if same_function f g then f else g) fs
             else fs ++ [f] in
  existsb (same_function f) fs' = true
  /\ map (fun g => if same_function f g then f else g) fs' = fs'.
Proof.
  simpl. pose proof (same_function_refl f) as Hff.
  destruct (existsb (same_function f) fs) eqn:He.
  - split.
    + clear - He Hff. induction fs as [ | g gs IH]; simpl in *;
        [ discriminate | ].
      destruct (same_function f g) eqn:Hg; simpl in *.
      * now rewrite Hff.
      * rewrite Hg. simpl. now apply IH.
    + clear - Hff. induction fs as [ | g gs IH]; simpl;
        [ reflexivity | ].
      rewrite IH. destruct (same_function f g) eqn:Hg.
      * now rewrite Hff.
      * now rewrite Hg.
  - split.
    + rewrite existsb_app. simpl. now rewrite Hff, orb_true_r.
    + rewrite map_app. simpl. rewrite Hff. f_equal.
      clear - He. induction fs as [ | g gs IH]; simpl in *;
        [ reflexivity | ].
      apply orb_false_iff in He. destruct He as [Hg Hgs].
      now rewrite Hg, IH.
Qed.

(** In a list that replacing [f] leaves as it is, every function with the
    signature of [f] is [f]. *)
Lemma replaced_is (f g : Function) (fs : list Function) :
  map (fun g => if same_function f g then f else g) fs = fs ->
  In g fs -> same_function f g = true -> g = f.
Proof.
  intros Hmap Hin Hsame. rewrite <- Hmap in Hin.
  apply in_map_iff in Hin. destruct Hin as (h & Hh & _).
  destruct (same_function f h) eqn:Hsh; subst g; [ reflexivity | congruence ].
Qed.

Lemma dropped_triggers (ts : list Trigger) :
  let kept := filter (fun t => negb (on_table "on_auth_user_created" "auth" "users" t)) ts in
  existsb (on_table "on_auth_user_created" "auth" "users") kept = false
  /\ filter (fun t => negb (on_table "on_auth_user_created" "auth" "users" t)) kept
     = kept
  /\ filter (on_table "on_auth_user_created" "auth" "users") kept = [].
Proof.
  simpl. induction ts as [ | t ts IH]; simpl; [ now repeat split | ].
  destruct IH as (H1 & H2 & H3).
  destruct (on_table "on_auth_user_created" "auth" "users" t) eqn:Ht; simpl;
    rewrite ?Ht; simpl; rewrite ?H2; now repeat split.
Qed.

Lemma create_trigger_Some (t : Trigger) (c c' : Catalog) :
  create_trigger t c = Some c' ->
  has_table (trg_schema t) (trg_table t) c = true
  /\ existsb (trigger_function t) (functions c) = true
  /\ existsb (on_table (trg_name t) (trg_schema t) (trg_table t)) (triggers c)
     = false
  /\ c' = {| tables := tables c; policies := policies c;
             functions := functions c; triggers := triggers c ++ [t] |}.
Proof.
  unfold create_trigger.
  destruct (has_table (trg_schema t) (trg_table t) c); [ | discriminate ].
  destruct (existsb (trigger_function t) (functions c)); [ | discriminate ].
  destruct (existsb (on_table _ _ _) (triggers c)); [ discriminate | ].
  simpl. intros H. injection H as <-. now repeat split.
Qed.

Lemma create_trigger_ok (t : Trigger) (c : Catalog) :
  has_table (trg_schema t) (trg_table t) c = true ->
  existsb (trigger_function t) (functions c) = true ->
  existsb (on_table (trg_name t) (trg_schema t) (trg_table t)) (triggers c)
  = false ->
  create_trigger t c
  = Some {| tables := tables c; policies := policies c;
            functions := functions c; triggers := triggers c ++ [t] |}.
Proof.
  unfold create_trigger. now intros -> -> ->.
Qed.

Lemma install_Some (c c' : Catalog) :
  install c = Some c' ->
  tables c' = tables c /\ policies c' = policies c /\ installed c'
  /\ (forall g, In g (functions c) ->
        same_function handle_new_user_function g = true ->
        fn_returns g = "trigger").
Proof.
  unfold install. intros H. apply and_then_Some in H.
  destruct H as (c1 & Hf & Ht).
  unfold create_or_replace_function in Hf.
  destruct (existsb (other_return_type handle_new_user_function) (functions c))
    eqn:Hother; [ discriminate | ].
  injection Hf as <-.
  apply create_trigger_Some in Ht. destruct Ht as (Htab & _ & _ & ->).
  unfold drop_trigger_if_exists, has_table in *.
  cbn [tables policies functions triggers trg_name trg_schema trg_table
       on_auth_user_created] in *.
  destruct (dropped_triggers (triggers c)) as (H1 & H2 & H3).
  cbn zeta in H1, H2, H3.
  destruct (replaced_functions handle_new_user_function (functions c))
    as [Hex Hmap]. cbn zeta in Hex, Hmap.
  split; [ reflexivity | ]. split; [ reflexivity | ].
  split.
  - unfold installed. cbn [tables functions triggers has_table].
    split; [ exact Htab | ]. split; [ exact Hex | ]. split; [ exact Hmap | ].
    eexists. split; [ reflexivity | exact H2 ].
  - intros g Hin Hsame.
    destruct (String.eqb (fn_returns g) "trigger") eqn:Hr;
      [ now apply String.eqb_eq | ].
    assert (Hex' : existsb (other_return_type handle_new_user_function)
                           (functions c) = true).
    { apply existsb_exists. exists g. split; [ exact Hin | ].
      unfold other_return_type. rewrite Hsame. simpl. now rewrite Hr. }
    congruence.
Qed.

Lemma install_again (c : Catalog) : installed c -> install c = Some c.
Proof.
  intros (Htab & Hex & Hmap & ts & Ht & H2).
  unfold install, create_or_replace_function.
  assert (Hother : existsb (other_return_type handle_new_user_function)
                           (functions c) = false).
  { destruct (existsb (other_return_type handle_new_user_function)
                      (functions c)) eqn:He; [ | reflexivity ].
    apply existsb_exists in He. destruct He as (g & Hin & Hg).
    unfold other_return_type in Hg. apply andb_prop in Hg.
    destruct Hg as [Hsame Hret].
    rewrite (replaced_is _ g _ Hmap Hin Hsame) in Hret. discriminate Hret. }
  rewrite Hother, Hex, Hmap. cbn [and_then].
  assert (Hfun : existsb (trigger_function on_auth_user_created) (functions c)
                 = true).
  { apply existsb_exists in Hex. destruct Hex as (g & Hin & Hsame).
    apply existsb_exists. exists g. split; [ exact Hin | ].
    now rewrite (replaced_is _ g _ Hmap Hin Hsame). }
  destruct (dropped_triggers ts) as (H1 & _ & _). cbn zeta in H1.
  rewrite H2 in H1.
  rewrite create_trigger_ok.
  - unfold drop_trigger_if_exists. cbn [tables policies functions triggers].
    rewrite Ht, filter_app, H2. cbn. rewrite List.app_nil_r.
    destruct c. cbn in *. now rewrite Ht.
  - exact Htab.
  - exact Hfun.
  - unfold drop_trigger_if_exists.
    cbn [triggers trg_name trg_schema trg_table on_auth_user_created].
    rewrite Ht, filter_app, H2. cbn. now rewrite List.app_nil_r.
Qed.

(** X20.  Whenever the migration goes through, it can be run again: the
    second run goes through as well and changes nothing.  A run that went
    through has kept the tables and every policy that was there, adding
    policies at the end only (a policy already listed for a table [pings]
    under one of the three names is left as it is, not redefined);
    afterwards the three names are listed, [auth.users] has exactly one
    trigger [on_auth_user_created], and every function
    [public.handle_new_user()] has the body of this migration.  It can only
    go through when [auth.users] exists and no function
    [public.handle_new_user()] returns another type than [trigger]. *)
Theorem migration_is_idempotent (c c1 : Catalog) :
  migrate c = Some c1 ->
  migrate c1 = Some c1
  /\ tables c1 = tables c
  /\ (exists added, policies c1 = policies c ++ added)
  /\ (policy_listed "pings" "Users can create pings." c1 = true
      /\ policy_listed "pings" "Users can update their own pings." c1 = true
      /\ policy_listed "pings" "Users can delete their own pings." c1 = true)
  /\ filter (on_table "on_auth_user_created" "auth" "users") (triggers c1)
     = [on_auth_user_created]
  /\ (forall f, In f (functions c1) ->
        same_function handle_new_user_function f = true ->
        f = handle_new_user_function)
  /\ has_table "auth" "users" c = true
  /\ (forall f, In f (functions c) ->
        same_function handle_new_user_function f = true ->
        fn_returns f = "trigger").
Proof.
  unfold migrate. intros H.
  apply and_then_Some in H. destruct H as (a1 & E1 & H).
  apply and_then_Some in H. destruct H as (a2 & E2 & H).
  apply and_then_Some in H. destruct H as (a3 & E3 & H).
  change (install a3 = Some c1) in H.
  apply create_policy_if_not_listed_Some in E1. destruct E1 as (n1 & -> & _ & L1).
  apply create_policy_if_not_listed_Some in E2. destruct E2 as (n2 & -> & _ & L2).
  apply create_policy_if_not_listed_Some in E3. destruct E3 as (n3 & -> & _ & L3).
  cbn [tables policies functions triggers] in *.
  apply install_Some in H. destruct H as (Htab & Hp & Hinst & Hret).
  cbn [tables policies functions triggers] in *.
  assert (L1' : policy_listed "pings" "Users can create pings." c1 = true).
  { unfold policy_listed in *. rewrite Hp.
    cbn [policies pol_table pol_name create_pings] in *.
    now rewrite 2!existsb_app, L1. }
  assert (L2' : policy_listed "pings" "Users can update their own pings." c1 = true).
  { unfold policy_listed in *. rewrite Hp.
    cbn [policies pol_table pol_name update_pings] in *.
    now rewrite existsb_app, L2. }
  assert (L3' : policy_listed "pings" "Users can delete their own pings." c1 = true).
  { unfold policy_listed in *. rewrite Hp.
    cbn [policies pol_table pol_name delete_pings] in *. exact L3. }
  split; [ | split; [ | split; [ | split; [ | split; [ | split; [ | split ] ] ] ] ] ].
  - rewrite (create_policy_if_not_listed_again create_pings c1 L1').
    cbn [and_then].
    rewrite (create_policy_if_not_listed_again update_pings c1 L2').
    cbn [and_then].
    rewrite (create_policy_if_not_listed_again delete_pings c1 L3').
    cbn [and_then].
    now apply install_again.
  - exact Htab.
  - rewrite Hp. exists (n1 ++ n2 ++ n3). now rewrite <- !app_assoc.
  - now repeat split.
  - destruct Hinst as (_ & _ & _ & ts & -> & H2).
    rewrite filter_app.
    destruct (dropped_triggers ts) as (_ & _ & H3). cbn zeta in H3.
    rewrite H2 in H3. now rewrite H3.
  - intros f Hin Hsame. destruct Hinst as (_ & _ & Hmap & _).
    exact (replaced_is _ f _ Hmap Hin Hsame).
  - destruct Hinst as (Ht & _). unfold has_table in *. now rewrite <- Htab.
  - exact Hret.
Qed.

End CatalogFacts.

(** A database of the project before the migration: the two tables, a
    policy for reading, an earlier version of the function. *)
Definition catalog_before : Catalog.Catalog :=
  {| Catalog.tables := [("public", "pings"); ("public", "profiles");
                        ("auth", "users")];
     Catalog.policies :=
       [ {| Catalog.pol_schema := "public"; Catalog.pol_table := "pings";
            Catalog.pol_name := "Moderators can create pings.";
            Catalog.pol_command := Catalog.ForInsert;
            Catalog.pol_using := None; Catalog.pol_check := None |} ];
     Catalog.functions :=
       [ {| Catalog.fn_schema := "public"; Catalog.fn_name := "handle_new_user";
            Catalog.fn_args := []; Catalog.fn_returns := "trigger";
            Catalog.fn_body := Catalog.OtherBody "earlier version" |} ];
     Catalog.triggers := [] |}.

Lemma migration_is_idempotent_witness :
  exists c1,
    Catalog.migrate catalog_before = Some c1
    /\ Catalog.migrate c1 = Some c1
    /\ Catalog.functions c1 = [Catalog.handle_new_user_function]
    /\ Catalog.triggers c1 = [Catalog.on_auth_user_created]
    /\ List.length (Catalog.policies c1) = 4%nat.
Proof.
  eexists. split; [ reflexivity | ].
  split; [ | repeat split ].
  eapply (migration_is_idempotent catalog_before). reflexivity.
Defined.

(** Where a function [public.handle_new_user()] returns another type,
    [CREATE OR REPLACE FUNCTION] raises an error and the migration does not
    go through. *)
Example migration_refused_on_other_return_type :
  Catalog.migrate
    {| Catalog.tables := [("public", "pings"); ("auth", "users")];
       Catalog.policies := [];
       Catalog.functions :=
         [ {| Catalog.fn_schema := "public"; Catalog.fn_name := "handle_new_user";
              Catalog.fn_args := []; Catalog.fn_returns := "void";
              Catalog.fn_body := Catalog.OtherBody "earlier version" |} ];
       Catalog.triggers := [] |}
  = None.
Proof. reflexivity. Qed.

(** The guard of the policies looks at the table name only: a policy of
    that name on a table [pings] of another schema keeps the policy of
    [public.pings] from being created. *)
Example policy_of_another_schema_blocks_creation :
  let archived :=
    {| Catalog.pol_schema := "archive"; Catalog.pol_table := "pings";
       Catalog.pol_name := "Users can create pings.";
       Catalog.pol_command := Catalog.ForInsert;
       Catalog.pol_using := None; Catalog.pol_check := None |} in
  option_map Catalog.policies
    (Catalog.migrate {| Catalog.tables := [("public", "pings"); ("archive", "pings");
                                           ("auth", "users")];
                        Catalog.policies := [archived];
                        Catalog.functions := []; Catalog.triggers := [] |})
  = Some [archived; Catalog.update_pings; Catalog.delete_pings].
Proof. reflexivity. Qed.


(* ===================================================================== *)
(** ** More about the profiles the trigger creates *)
(* ===================================================================== *)

Section NewUserFacts.
Import Migration.

Lemma before_free_of (c : ascii) (s : string) : free_of c (before c s).
Proof.
  induction s as [ | a s IH]; simpl; [ exact I | ].
  destruct (Ascii.eqb_spec a c); simpl; [ exact I | now split ].
Qed.

Lemma before_prefix (c : ascii) (s : string) :
  exists rest, s = (before c s ++ rest)%string.
Proof.
  induction s as [ | a s IH]; simpl; [ now exists EmptyString | ].
  destruct (Ascii.eqb a c); simpl.
  - now eexists.
  - destruct IH as (rest & IH). exists rest. now rewrite <- IH.
Qed.

Lemma before_app (c : ascii) (l r : string) :
  free_of c l -> before c (l ++ String c r) = l.
Proof.
  induction l as [ | a l IH]; simpl.
  - intros _. now rewrite Ascii.eqb_refl.
  - intros [Ha Hl]. apply Ascii.eqb_neq in Ha. rewrite Ha. now rewrite IH.
Qed.

(** Sign-ups one after the other. *)
Definition insert_all (users : list auth_user) (db : Database) : Database :=
  fold_left (fun d u => insert_auth_user u d) users db.

(** X21.  Every row inserted into [auth.users] gets exactly one profile,
    with its id, in the order of the inserts; rows and profiles that were
    there before are not touched.  So a database with as many profiles as
    users still has as many after any number of sign-ups. *)
Theorem one_profile_per_user (users : list auth_user) (db : Database) :
  auth_users (insert_all users db) = auth_users db ++ users
  /\ profiles (insert_all users db) = profiles db ++ map new_profile users
  /\ map profile_id (map new_profile users) = map id users
  /\ (List.length (profiles db) = List.length (auth_users db) ->
      List.length (profiles (insert_all users db))
      = List.length (auth_users (insert_all users db))).
Proof.
  assert (H : auth_users (insert_all users db) = auth_users db ++ users
              /\ profiles (insert_all users db)
                 = profiles db ++ map new_profile users).
  { unfold insert_all. revert db.
    induction users as [ | u users IH]; intros db; simpl.
    - now rewrite !List.app_nil_r.
    - destruct (IH (insert_auth_user u db)) as [-> ->].
      unfold insert_auth_user. simpl. now rewrite <- !app_assoc. }
  destruct H as [Ha Hp]. rewrite Ha, Hp.
  split; [ reflexivity | ]. split; [ reflexivity | ]. split.
  - rewrite map_map. reflexivity.
  - intros Hl. rewrite !length_app, length_map. lia.
Qed.

(** X22.  The profile of a new user has a NULL username only when the
    metadata gives no username and the user has no email, and a NULL display
    name only when the metadata gives no display name either: whenever the
    username is there, the display name is. *)
Theorem profile_names_null_cases (new : auth_user) :
  (username (new_profile new) = None <->
     get_text (raw_user_meta_data new) "username" = None /\ email new = None)
  /\ (display_name (new_profile new) = None <->
        get_text (raw_user_meta_data new) "display_name" = None
        /\ get_text (raw_user_meta_data new) "username" = None
        /\ email new = None)
  /\ (username (new_profile new) <> None ->
      display_name (new_profile new) <> None).
Proof.
  unfold new_profile, split_part. cbn [username display_name coalesce].
  destruct (get_text (raw_user_meta_data new) "username"),
    (get_text (raw_user_meta_data new) "display_name"),
    (email new); cbn [coalesce]; intuition congruence.
Qed.

(** X23.  A username taken from the email is the part before the first
    [@]: it contains no [@] and starts the address; for an address
    [local@domain] whose local part has no [@] it is [local], and so is the
    display name when the metadata names nothing. *)
Theorem username_from_email (new : auth_user) (e : string) :
  get_text (raw_user_meta_data new) "username" = None ->
  email new = Some e ->
  (exists u rest,
      username (new_profile new) = Some u
      /\ free_of "@" u /\ e = (u ++ rest)%string)
  /\ (forall local domain,
        free_of "@" local -> e = (local ++ String "@" domain)%string ->
        username (new_profile new) = Some local
        /\ (get_text (raw_user_meta_data new) "display_name" = None ->
            display_name (new_profile new) = Some local)).
Proof.
  intros Hmeta He. unfold new_profile. cbn [username display_name].
  rewrite Hmeta, He. cbn [coalesce].
  pose proof (split_part_first e) as Hs. split.
  - destruct (before_prefix "@" e) as (rest & Hrest).
    exists (before "@" e), rest. rewrite Hs. cbn [coalesce].
    split; [ reflexivity | ]. split; [ apply before_free_of | exact Hrest ].
  - intros local domain Hfree ->. rewrite Hs. cbn [coalesce].
    rewrite (before_app "@" local domain Hfree).
    split; [ reflexivity | ]. intros ->. reflexivity.
Qed.

End NewUserFacts.

Lemma username_from_email_witness :
  let new := {| Migration.id := "7"; Migration.email := Some "carol@example.org";
                Migration.raw_user_meta_data := Some [] |} in
  Migration.get_text (Migration.raw_user_meta_data new) "username" = None
  /\ Migration.email new = Some "carol@example.org"
  /\ (exists u rest,
         Migration.username (Migration.new_profile new) = Some u
         /\ free_of "@" u /\ "carol@example.org" = (u ++ rest)%string).
Proof.
  split; [ reflexivity | ].
  split; [ reflexivity | ].
  apply (username_from_email
           {| Migration.id := "7"; Migration.email := Some "carol@example.org";
              Migration.raw_user_meta_data := Some [] |} "carol@example.org");
    reflexivity.
Defined.

(* ===================================================================== *)
(** ** The notifications page *)
(* ===================================================================== *)

Module Notifications.
Import ApiService.

Record State := {
  notifications : list JsVal;
  loading : bool
}.

(** [useState([])], [useState(true)] *)
Definition initial : State := {| notifications := []; loading := true |}.








Inductive View :=
| Spinner
| NoNotificationsYet
| Listing (rows : list JsVal).

Definition render (st : State) : View :=
  if loading st then Spinner
  else match notifications st with
       | [] => NoNotificationsYet
       | rows => Listing rows
       end.





End Notifications.

Section NotificationFacts.
Import Notifications.


End NotificationFacts.

(* ===================================================================== *)
(** ** The post page *)
(* ===================================================================== *)

Module PostDetail.
Import ApiService.

Record State := {
  post : option JsVal;
  comments : list JsVal;
  newComment : string;
  loading : bool;
  error : option string
}.

(** The initial values of the five [useState]. *)
Definition initial : State :=
  {| post := None; comments := []; newComment := EmptyString;
     loading := true; error := None |}.

Definition setPost (p : JsVal) (st : State) : State :=
  {| post := Some p; comments := comments st; newComment := newComment st;
     loading := loading st; error := error st |}.
Definition setComments (c : list JsVal) (st : State) : State :=
  {| post := post st; comments := c; newComment := newComment st;
     loading := loading st; error := error st |}.
Definition setLoading (l : bool) (st : State) : State :=
  {| post := post st; comments := comments st; newComment := newComment st;
     loading := l; error := error st |}.
Definition setError (e : option string) (st : State) : State :=
  {| post := post st; comments := comments st; newComment := newComment st;
     loading := loading st; error := e |}.

(** [if (!id)]: a missing and an empty id are both falsy. *)
Definition present (id : option string) : option string :=
  match id with
  | Some i => if String.eqb i EmptyString then None else Some i
  | None => None
  end.

(** [select('*, profiles(username)')] *)
Definition with_author : list Column := [Star; Embed "profiles" ["username"]].

Definition post_query (id : string) : Query :=
  single (eq "id" (JStr id) (from "pings" (select with_author))).

Definition likes_query (postId : JsVal) : Query :=
  eq "post_id" postId (from "likes" (Select [Star] true false)).

Definition comments_query (id : string) : Query :=
  order "created_at" false
    (eq "post_id" (JStr id) (from "comments" (select with_author))).

(** [{ ...o, k: v }] on the properties of [o]: an existing [k] keeps its
    place and takes the new value, a new [k] comes last. *)
Fixpoint assign (k : string) (v : JsVal) (fs : list (string * JsVal))
  : list (string * JsVal) :=
  match fs with
  | [] => [(k, v)]
  | (k', v') :: rest =>
      if String.eqb k k' then (k, v) :: rest else (k', v') :: assign k v rest
  end.

(** [likesCount || 0] *)
Definition likes_or_zero (answer : PgResponse) : Z :=
  match answer with
  | PgOk _ (Some n) => Z.of_N n
  | _ => 0%Z
  end.

(** [{ ...postData, likes_count, comments_count }] *)
Definition shown_post (postData : JsVal) (likes : PgResponse)
    (items : list JsVal) : JsVal :=
  JObj (assign "comments_count" (JNum (Z.of_nat (List.length items)))
          (assign "likes_count" (JNum (likes_or_zero likes))
             (entries postData))).

(** Reading a property of null or undefined: the message is the
    engine's. *)
Definition TypeError : Thrown := ErrorObject "TypeError".

(** A program of the page: requests, then the state it leaves and how it
    ended. *)
Definition Page : Type := Prog (State * Outcome unit).

Definition done (st : State) : Page := Ret (st, Returned tt).
Definition failed (st : State) (t : Thrown) : Page := Ret (st, Threw t).

(** [fetchPostAndComments], for the [id] of the route. *)
Definition fetchPostAndComments (id : option string) (st : State) : Page :=
  let st := setError None (setLoading true st) in
  match present id with
  | None => done (setLoading false (setError (Some "Post ID is missing.") st))
  | Some id =>
      Vis (DbQuery (post_query id)) (fun r =>
      match r with
      | Rejected v => failed st (Reason v)
      | Fulfilled (PgErr _) =>
          Vis (Log Error "Error fetching post") (fun _ =>
          done (setLoading false (setError (Some "Failed to fetch post.") st)))
      | Fulfilled (PgOk postData _) =>
          match postData with
          | JNull | JUndefined => failed st TypeError      (* postData.id *)
          | _ =>
              Vis (DbQuery (likes_query (get postData "id"))) (fun r2 =>
              match r2 with
              | Rejected v => failed st (Reason v)
              | Fulfilled likes =>
                  Vis (DbQuery (comments_query id)) (fun r3 =>
                  match r3 with
                  | Rejected v => failed st (Reason v)
                  | Fulfilled (PgErr _) =>
                      Vis (Log Error "Error fetching comments") (fun _ =>
                      done (setLoading false
                              (setError (Some "Failed to fetch comments.") st)))
                  | Fulfilled (PgOk (JArr items) _) =>
                      done (setLoading false
                              (setComments items
                                 (setPost (shown_post postData likes items) st)))
                  | Fulfilled (PgOk _ _) =>
                      failed st TypeError                  (* commentsData.length *)
                  end)
              end)
          end
      end)
  end.






(** [s.trim()] for the whitespace of ASCII: space, tab, line feed,
    vertical tab, form feed, carriage return. *)
Definition is_space (a : ascii) : bool :=
  let n := nat_of_ascii a in
  Nat.eqb n 32 || (Nat.leb 9 n && Nat.leb n 13).

Fixpoint trim_start (s : string) : string :=
  match s with
  | String a rest => if is_space a then trim_start rest else s
  | EmptyString => EmptyString
  end.

Fixpoint trim_end (s : string) : string :=
  match s with
  | EmptyString => EmptyString
  | String a rest =>
      match trim_end rest with
      | EmptyString => if is_space a then EmptyString else String a EmptyString
      | kept => String a kept
      end
  end.

Definition ascii_trim (s : string) : string := trim_end (trim_start s).

End PostDetail.

Section PostDetailFacts.
Import PostDetail Wrappers.






Context {S : Type} (b : Backend S).

(** X25.  [fetchPostAndComments] on every path.  Without an id it sends
    nothing and reports "Post ID is missing.".  When it returns it has
    stopped loading, and it sends at most three queries; a failed post query
    is the only one sent.  Whenever it reports an error, the post and the
    comments shown before stay as they were.  When a request rejects
    instead, it throws with [loading] still true and no error reported: the
    page keeps its spinner.  An error of the likes query is never
    reported: if nothing else fails, the fetch ends without error. *)
Theorem fetchPostAndComments_paths (id : option string) (st : State) (s : S) :
  let st' := fst (outcome b (fetchPostAndComments id st) s) in
  let o := snd (outcome b (fetchPostAndComments id st) s) in
  let tr := trace b (fetchPostAndComments id st) s in
  newComment st' = newComment st
  /\ (count is_query tr <= 3)%nat
  /\ (o = Returned tt -> loading st' = false)
  /\ (forall t, o = Threw t -> loading st' = true /\ error st' = None)
  /\ (present id = None ->
        tr = [] /\ o = Returned tt
        /\ error st' = Some "Post ID is missing.")
  /\ (error st' = Some "Failed to fetch post." -> count is_query tr = 1%nat)
  /\ (error st' <> None ->
        post st' = post st /\ comments st' = comments st)
  /\ ((forall q e, In (EvQuery q (Fulfilled (PgErr e))) tr ->
                    q_table q = "likes") ->
      o = Returned tt -> present id <> None -> error st' = None).
Proof.
  cbn zeta. unfold outcome, trace, fetchPostAndComments, done, failed.
  destruct (present id) as [i | ] eqn:Hp;
  walk; cbn;
    repeat match goal with
           | |- _ /\ _ => split
           end;
    try reflexivity; try lia; try discriminate;
    try (intros; discriminate); try (intros; split; reflexivity);
    try (intros; repeat split; reflexivity);
    try (intros H; now contradiction H);
    try (match goal with
         | |- context [EvQuery (comments_query ?i) (Fulfilled (PgErr ?e))] =>
             intros Hall _ _;
             specialize (Hall (comments_query i) e); simpl in Hall;
             discriminate Hall; tauto
         | |- context [EvQuery (post_query ?i) (Fulfilled (PgErr ?e))] =>
             intros Hall _ _;
             specialize (Hall (post_query i) e); simpl in Hall;
             discriminate Hall; tauto
         | |- _ -> _ -> None <> None -> _ =>
             intros _ _ Hne; now destruct Hne
         end).
Qed.



End PostDetailFacts.


